(** * Training-funds request workflow: request ids, cost breakdown and the
      submit / decide handlers

    Shallow embedding of the two Netlify functions of the members area
    (the submission handler with [generateRequestId] and
    [calculateCostBreakdown], and the decision handler) and of the parts of
    JavaScript they rely on: IEEE-754 binary64 numbers, [parseFloat],
    [parseInt], [String(number)], truthiness, and a blob store keyed by
    strings. *)

From Stdlib Require Import ZArith Lia Bool Ascii String SpecFloat.
From Stdlib Require Import DecimalString DecimalN DecimalPos.
From stdpp Require Import base option list gmap strings.

Local Open Scope string_scope.
Local Open Scope Z_scope.

(** ** JavaScript numbers

    A JavaScript number is an IEEE-754 binary64 value.  The operations are
    those of the Standard Library's executable specification [SpecFloat]
    (round to nearest, ties to even), instantiated at precision 53 and
    maximal exponent 1024. *)
Module JS.

Definition number : Type := spec_float.

Definition prec : Z := 53.
Definition emax : Z := 1024.

Definition NaN : number := S754_nan.
Definition zero : number := S754_zero false.

(** [x + y] *)
Definition add (x y : number) : number := SFadd prec emax x y.

(** [x > y]; false as soon as one side is NaN. *)
Definition gt (x y : number) : bool := SFltb y x.

(** [x == y] on two numbers (the same as [x === y]). *)
Definition eq (x y : number) : bool := SFeqb x y.

(** ToBoolean on a number: NaN, +0 and -0 are falsy. *)
Definition truthy (x : number) : bool :=
  match x with
  | S754_nan | S754_zero _ => false
  | _ => true
  end.

(** [x || y] on numbers. *)
Definition or (x y : number) : number := if truthy x then x else y.

(** The number of an integer literal. *)
Definition of_Z (z : Z) : number := binary_normalize prec emax z 0 false.

(** The representation of an integer [0 < n < 2^53]: a mantissa of exactly
    53 bits. *)
Definition canon (n : Z) : number :=
  S754_finite false (Z.to_pos (n * 2 ^ (52 - Z.log2 n))) (Z.log2 n - 52).

(** The number nearest to [m * 10^e], with sign [neg]; [m] is the integer
    written by the digits of a decimal literal.  For [e < 0] the quotient
    [m / 10^-e] is rounded once, by the division of [SpecFloat], which
    takes mantissas of any size. *)
Definition of_decimal (neg : bool) (m : Z) (e : Z) : number :=
  match m with
  | Zpos p =>
      if 0 <=? e
      then binary_round prec emax neg (p * Z.to_pos (10 ^ e)) 0
      else SFdiv prec emax (S754_finite neg p 0)
                           (S754_finite false (Z.to_pos (10 ^ (- e))) 0)
  | _ => S754_zero neg
  end.

(** *** Characters and decimal digit strings *)

Definition is_digit (c : ascii) : bool :=
  let n := nat_of_ascii c in (48 <=? n)%nat && (n <=? 57)%nat.

Definition digit_val (c : ascii) : Z := Z.of_nat (nat_of_ascii c) - 48.

(** White space that [parseFloat], [parseInt] and [trim] skip.  Strings
    are sequences of bytes here, so only the ASCII members of the
    ECMAScript white-space class are recognised: TAB, LF, VT, FF, CR and
    the space. *)
Definition is_white (c : ascii) : bool :=
  let n := nat_of_ascii c in
  ((9 <=? n)%nat && (n <=? 13)%nat) || (n =? 32)%nat.

Fixpoint skip_white (s : string) : string :=
  match s with
  | String c r => if is_white c then skip_white r else s
  | EmptyString => EmptyString
  end.

(** The longest prefix of decimal digits, and what follows it. *)
Fixpoint take_digits (s : string) : string * string :=
  match s with
  | String c r =>
      if is_digit c
      then let '(d, rest) := take_digits r in (String c d, rest)
      else (EmptyString, s)
  | EmptyString => (EmptyString, EmptyString)
  end.

(** The integer written by a string of digits, continuing from [acc]. *)
Fixpoint digits_value (acc : Z) (s : string) : Z :=
  match s with
  | String c r => digits_value (10 * acc + digit_val c) r
  | EmptyString => acc
  end.

(** An optional leading sign. *)
Definition take_sign (s : string) : bool * string :=
  match s with
  | String "-" r => (true, r)
  | String "+" r => (false, r)
  | _ => (false, s)
  end.

(** [parseInt(s, 10)]: leading white space, an optional sign, then the
    longest run of decimal digits; NaN when there is no digit. *)
Definition parseInt (s : string) : number :=
  let '(neg, s1) := take_sign (skip_white s) in
  let '(ds, _) := take_digits s1 in
  match ds with
  | EmptyString => NaN
  | _ => of_decimal neg (digits_value 0 ds) 0
  end.

(** The exponent part [e[+-]digits] of a decimal literal; it counts only
    when at least one digit follows. *)
Definition take_exponent (s : string) : Z :=
  match s with
  | String c r =>
      if (Ascii.eqb c "e" || Ascii.eqb c "E")%bool
      then let '(neg, r1) := take_sign r in
           let '(ds, _) := take_digits r1 in
           match ds with
           | EmptyString => 0
           | _ => if neg then - digits_value 0 ds else digits_value 0 ds
           end
      else 0
  | EmptyString => 0
  end.

(** [parseFloat(s)]: leading white space, then the longest prefix that is
    a decimal literal ([Infinity], or digits with an optional fraction and
    exponent, each optionally signed); NaN when there is none. *)
Definition parseFloat (s : string) : number :=
  let '(neg, s1) := take_sign (skip_white s) in
  if String.prefix "Infinity" s1 then S754_infinity neg else
  let '(ip, s2) := take_digits s1 in
  let '(fp, s3) :=
    match s2 with
    | String "." r => take_digits r
    | _ => (EmptyString, s2)
    end in
  match ip ++ fp with
  | EmptyString => NaN
  | ds => of_decimal neg (digits_value 0 ds)
                     (take_exponent s3 - Z.of_nat (String.length fp))
  end.

(** *** [String(number)]

    The decimal digits of a natural number. *)
Definition decimal (n : N) : string :=
  NilEmpty.string_of_uint (N.to_uint n).

Fixpoint zeros (n : nat) : string :=
  match n with
  | O => EmptyString
  | S k => String "0" (zeros k)
  end.

(** The value [m * 2^e] of a finite number as a fraction of two
    integers. *)
Definition numerator (m : positive) (e : Z) : Z :=
  if 0 <=? e then Zpos m * 2 ^ e else Zpos m.
Definition denominator (e : Z) : Z :=
  if 0 <=? e then 1 else 2 ^ (- e).

(** [m * 2^e] when it is an integer below 2^53, the range in which every
    integer is a number of its own. *)
Definition safe_integer (m : positive) (e : Z) : option N :=
  let v := numerator m e / denominator e in
  if (numerator m e mod denominator e =? 0) && (v <? 2 ^ 53)
  then Some (Z.to_N v) else None.

(** [floor (m * 2^e / 10^p)] *)
Definition scaled_floor (m : positive) (e p : Z) : Z :=
  if 0 <=? p
  then numerator m e / (denominator e * 10 ^ p)
  else (numerator m e * 10 ^ (- p)) / denominator e.

(** Comparison of [s * 10^p] with [m * 2^e]. *)
Definition compare_decimal (s p : Z) (m : positive) (e : Z) : comparison :=
  if 0 <=? p
  then (s * 10 ^ p * denominator e ?= numerator m e)
  else (s * denominator e ?= numerator m e * 10 ^ (- p)).

(** The least [n], searched upwards from [n0], with [m * 2^e < 10^n]. *)
Fixpoint decimal_exponent (fuel : nat) (n0 : Z) (m : positive) (e : Z) : Z :=
  match fuel with
  | O => n0
  | S fuel' =>
      match compare_decimal 1 n0 m e with
      | Gt => n0
      | _ => decimal_exponent fuel' (n0 + 1) m e
      end
  end.

(** Whether twice [m * 2^e] is nearer to [lo * 10^p] than to
    [(lo + 1) * 10^p], equally near, or farther. *)
Definition nearer (lo p : Z) (m : positive) (e : Z) : comparison :=
  if 0 <=? p
  then (2 * numerator m e ?= (2 * lo + 1) * 10 ^ p * denominator e)
  else (2 * numerator m e * 10 ^ (- p) ?= (2 * lo + 1) * denominator e).

(** The shortest digits: the least [k <= 17] and an integer [s] of [k]
    digits such that [s * 10^(n-k)] is read back as [m * 2^e], taking the
    [s] nearest to the value, and the even one of two equally near. *)
Fixpoint shortest_digits (fuel : nat) (k n : Z) (m : positive) (e : Z)
  : Z * Z :=
  let p := n - k in
  let lo := scaled_floor m e p in
  let x := S754_finite false m e in
  let ok s := eq (of_decimal false s p) x in
  match fuel with
  | O => (lo, p)
  | S fuel' =>
      match ok lo, ok (lo + 1) with
      | true, true =>
          match nearer lo p m e with
          | Lt => (lo, p)
          | Gt => (lo + 1, p)
          | Eq => (if Z.even lo then lo else lo + 1, p)
          end
      | true, false => (lo, p)
      | false, true => (lo + 1, p)
      | false, false => shortest_digits fuel' (k + 1) n m e
      end
  end.

(** Trailing zeros of [s] moved into the exponent. *)
Fixpoint strip_zeros (fuel : nat) (s p : Z) : Z * Z :=
  match fuel with
  | O => (s, p)
  | S fuel' =>
      if (s mod 10 =? 0) && negb (s =? 0)
      then strip_zeros fuel' (s / 10) (p + 1)
      else (s, p)
  end.

(** Number::toString of ECMAScript on the digits [ds] of [s], where the
    value is [s * 10^p] and [n = p + length ds]. *)
Definition render_digits (ds : string) (n : Z) : string :=
  let k := Z.of_nat (String.length ds) in
  if (k <=? n) && (n <=? 21) then
    ds ++ zeros (Z.to_nat (n - k))
  else if (0 <? n) && (n <=? 21) then
    String.substring 0 (Z.to_nat n) ds ++ "." ++
    String.substring (Z.to_nat n) (Z.to_nat (k - n)) ds
  else if (-6 <? n) && (n <=? 0) then
    "0." ++ zeros (Z.to_nat (- n)) ++ ds
  else
    let ex := n - 1 in
    let mark := if 0 <=? ex then "e+" else "e-" in
    let head := String.substring 0 1 ds in
    let tail := String.substring 1 (Z.to_nat (k - 1)) ds in
    (if k =? 1 then head else head ++ "." ++ tail)
    ++ mark ++ decimal (Z.to_N (Z.abs ex)).

(** [String(x)] for a positive finite [x = m * 2^e]. *)
Definition positive_toString (m : positive) (e : Z) : string :=
  match safe_integer m e with
  | Some v => decimal v
  | None =>
      let n := decimal_exponent 700 (-330) m e in
      let '(s0, p0) := shortest_digits 17 1 n m e in
      let '(s, p) := strip_zeros 400 s0 p0 in
      let ds := decimal (Z.to_N s) in
      render_digits ds (p + Z.of_nat (String.length ds))
  end.

(** [String(x)] *)
Definition toString (x : number) : string :=
  match x with
  | S754_nan => "NaN"
  | S754_zero _ => "0"
  | S754_infinity s => if s then "-Infinity" else "Infinity"
  | S754_finite s m e =>
      (if s then "-" else EmptyString) ++ positive_toString m e
  end.

End JS.

(** ** Form data and the cost breakdown *)

(** The fields of the submitted form that the two handlers read.  Amounts
    arrive as strings, or not at all ([None] is JavaScript's [undefined]);
    the flags are booleans. *)
Record FormData := {
  email : option string;
  requester_name : option string;
  registration_fee : option string;
  hotel_cost : option string;
  hotel_total : option string;
  flight_cost : option string;
  mileage_needed : bool;
  mileage_miles : option string;
  mileage_total : option string;
  meals_needed : bool;
  meals_total : option string;
  pay_ahead_registration : bool;
  pay_ahead_hotel : bool;
  pay_ahead_flight : bool
}.

(** [parseFloat(v)] of a field: [undefined] is first turned into the
    string "undefined", which has no numeric prefix. *)
Definition parseFloat (v : option string) : JS.number :=
  match v with
  | Some s => JS.parseFloat s
  | None => JS.NaN
  end.

Record Item := { label : string; amount : JS.number }.

Record CostBreakdown := {
  registration : JS.number;
  hotel : JS.number;
  flight : JS.number;
  mileage : JS.number;
  meals : JS.number;
  totalCost : JS.number;
  prepaidItems : list Item;
  prepaidTotal : JS.number;
  reimbursementItems : list Item;
  reimbursementTotal : JS.number
}.

(** [if (c) { items.push(it); total += it.amount; }] *)
Definition push_if (c : bool) (it : Item) (acc : list Item * JS.number)
  : list Item * JS.number :=
  if c then ((acc.1 ++ [it])%list, JS.add acc.2 (amount it)) else acc.

(** [data.mileage_miles || "?"] *)
Definition miles_or_unknown (v : option string) : string :=
  match v with
  | Some (String c r) => String c r
  | _ => "?"
  end.

Definition calculateCostBreakdown (data : FormData) : CostBreakdown :=
  let registration := JS.or (parseFloat (registration_fee data)) JS.zero in
  let hotel :=
    JS.or (JS.or (parseFloat (hotel_cost data)) (parseFloat (hotel_total data)))
          JS.zero in
  let flight := JS.or (parseFloat (flight_cost data)) JS.zero in
  let mileage :=
    if mileage_needed data
    then JS.or (parseFloat (mileage_total data)) JS.zero else JS.zero in
  let meals :=
    if meals_needed data
    then JS.or (parseFloat (meals_total data)) JS.zero else JS.zero in
  (* prepaid items (department pays before) *)
  let prepaid :=
    push_if (pay_ahead_flight data && JS.gt flight JS.zero)
      {| label := "Airfare"; amount := flight |}
    (push_if (pay_ahead_hotel data && JS.gt hotel JS.zero)
      {| label := "Hotel"; amount := hotel |}
    (push_if (pay_ahead_registration data && JS.gt registration JS.zero)
      {| label := "Registration"; amount := registration |}
    ([], JS.zero))) in
  (* reimbursement items (paid after); mileage and meals always are *)
  let reimbursement :=
    push_if (JS.gt meals JS.zero)
      {| label := "Meals / Per Diem"; amount := meals |}
    (push_if (JS.gt mileage JS.zero)
      {| label := "Mileage (" ++ miles_or_unknown (mileage_miles data) ++ " mi)";
         amount := mileage |}
    (push_if (negb (pay_ahead_flight data) && JS.gt flight JS.zero)
      {| label := "Airfare"; amount := flight |}
    (push_if (negb (pay_ahead_hotel data) && JS.gt hotel JS.zero)
      {| label := "Hotel"; amount := hotel |}
    (push_if (negb (pay_ahead_registration data) && JS.gt registration JS.zero)
      {| label := "Registration"; amount := registration |}
    ([], JS.zero))))) in
  {| registration := registration;
     hotel := hotel;
     flight := flight;
     mileage := mileage;
     meals := meals;
     totalCost :=
       JS.add (JS.add (JS.add (JS.add registration hotel) flight) mileage) meals;
     prepaidItems := prepaid.1;
     prepaidTotal := prepaid.2;
     reimbursementItems := reimbursement.1;
     reimbursementTotal := reimbursement.2 |}.

(** The total that the submission handler's [formatEmailHtml] and
    [formatEmailText] show to the approver: [breakdown.totalCost]. *)
Definition formatEmailHtml_totalCost (data : FormData) : JS.number :=
  totalCost (calculateCostBreakdown data).

(** The total that [formatRequesterEmailHtml] of the decision handler
    computes for the requester: [costs.reduce((sum, cost) => sum + cost, 0)]
    over the five parsed fields, where the hotel amount is read from
    [hotel_cost] alone and mileage and meals are read whatever their
    "needed" flags say. *)
Definition formatRequesterEmailHtml_totalCost (formData : FormData)
  : JS.number :=
  let costs :=
    [ JS.or (parseFloat (registration_fee formData)) JS.zero;
      JS.or (parseFloat (hotel_cost formData)) JS.zero;
      JS.or (parseFloat (flight_cost formData)) JS.zero;
      JS.or (parseFloat (mileage_total formData)) JS.zero;
      JS.or (parseFloat (meals_total formData)) JS.zero ] in
  fold_left (fun sum cost => JS.add sum cost) costs JS.zero.

(** The later revision of the decision handler calls
    [calculateCostBreakdown] instead. *)
Definition formatRequesterEmailHtml_totalCost' (formData : FormData)
  : JS.number :=
  totalCost (calculateCostBreakdown formData).

(** ** Strings *)

(** [email.split("@")[0]]: what precedes the first "@", the whole string
    when there is none. *)
Fixpoint before_at (s : string) : string :=
  match s with
  | String c r => if Ascii.eqb c "@" then EmptyString else String c (before_at r)
  | EmptyString => EmptyString
  end.

(** [s.replace(/-/g, ...)] with the empty string: every dash removed. *)
Fixpoint remove_dashes (s : string) : string :=
  match s with
  | String c r =>
      if Ascii.eqb c "-" then remove_dashes r else String c (remove_dashes r)
  | EmptyString => EmptyString
  end.

Fixpoint reverse_onto (s acc : string) : string :=
  match s with
  | String c r => reverse_onto r (String c acc)
  | EmptyString => acc
  end.

(** Text of bytes below 128.  On such text the white space of ECMAScript
    is the white space recognised by [JS.is_white]; beyond it ECMAScript
    has the no-break space, the byte order mark, the line and paragraph
    separators and the space separators of Unicode, which are not
    recognised here. *)
Fixpoint ascii_text (s : string) : bool :=
  match s with
  | String c r => (nat_of_ascii c <? 128)%nat && ascii_text r
  | EmptyString => true
  end.

(** [s.trim()], for [s] an [ascii_text]: what is stripped at both ends is
    the ASCII white space only.  What is stated below of blank or
    non-blank text under [trim] is stated of ASCII text. *)
Definition trim (s : string) : string :=
  reverse_onto (JS.skip_white (reverse_onto (JS.skip_white s) EmptyString)) EmptyString.

(** ToBoolean on a string that may be [undefined] or [null]. *)
Definition truthy (v : option string) : bool :=
  match v with
  | Some (String _ _) => true
  | _ => false
  end.

(** A value inside a template literal. *)
Definition template (v : option string) : string := default "undefined" v.

(** ** The blob store

    Both handlers open the same store, ["training-requests"].  It holds
    text, and the handlers write two kinds of text into it:
    [String(sequence)] under a sequence key and
    [JSON.stringify(requestData)] under a request id.  A blob is kept here
    as the value that was serialized; reading it back goes through
    [JS.toString] for a sequence number, and [JSON.parse] of a stringified
    record gives the record back. *)

Record RequestData := {
  formData : FormData;
  token : string;
  status : string;
  submittedAt : string;
  submittedBy : option string;
  decidedAt : option string;
  comments : option string;
  requestId : option string
}.

Inductive Blob :=
  | Sequence (sequence : JS.number)
  | Request (requestData : RequestData).

Abbreviation Store := (gmap string Blob).

(** ** Request ids *)

(** [username-YYYYMMDD]; [today] is [new Date().toISOString()]. *)
Definition id_prefix (email today : string) : string :=
  let username := before_at email in
  let dateStr := remove_dashes (String.substring 0 10 today) in
  username ++ "-" ++ dateStr.

Definition sequence_key (prefix : string) : string := "sequence-" ++ prefix.

(** The sequence number chosen after [existing = await store.get(key)]:
    1 when nothing (or an empty text) is stored, else
    [parseInt(existing, 10) + 1].  The JSON text of a request record
    starts with a brace, so [parseInt] of it is NaN. *)
Definition next_sequence (existing : option Blob) : JS.number :=
  match existing with
  | None => JS.of_Z 1
  | Some (Sequence x) =>
      match JS.toString x with
      | EmptyString => JS.of_Z 1
      | text => JS.add (JS.parseInt text) (JS.of_Z 1)
      end
  | Some (Request _) => JS.add JS.NaN (JS.of_Z 1)
  end.

Definition generateRequestId (email today : string) (store : Store)
  : string * Store :=
  let prefix := id_prefix email today in
  let sequenceKey := sequence_key prefix in
  let sequence := next_sequence (store !! sequenceKey) in
  (prefix ++ "-" ++ JS.toString sequence,
   <[sequenceKey := Sequence sequence]> store).

(** ** Collaborators: configuration, notifier, responses *)

Record Env := {
  TRAINING_APPROVER_EMAIL : option string;
  TRAINING_DISBURSER_EMAIL : option string;
  RESEND_API_KEY : option string
}.

Record Email := { to : option string; subject : string }.

(** What [resend.emails.send] resolves to: [{ data, error }] with one of
    the two set.  The store operations and the notifier are taken to
    return; a rejected promise is not modelled. *)
Inductive SendResult :=
  | Sent (id : option string)
  | SendError (message : option string).

Inductive Body :=
  | Json_error (error : string) (details : option string)
  | Json_success (requestId : string) (emailId : option string)
  | Plain (text : string)
  | Html_comments_required
  | Html_already_processed (status : string)
  | Html_confirmation (decision requestId : string).

Record Response := { code : Z; body : Body }.

(** The result of running a handler: its response, the store afterwards,
    and the messages handed to the notifier, in order. *)
Record Outcome := {
  response : Response;
  store_after : Store;
  outbox : list Email
}.

(** ** The submission handler *)

Record User := { user_email : option string }.

Record SubmitRequest := {
  submit_method : string;
  (** [verifyUser(cookies)]: the session payload, or [null] *)
  submit_user : option User;
  (** [await req.json()]; [None] when it throws *)
  submit_json : option FormData;
  (** [new Date().toISOString()] inside [generateRequestId] *)
  submit_today : string;
  (** [generateToken()], 32 random bytes in hexadecimal *)
  submit_token : string;
  (** [new Date().toISOString()] for [submittedAt] *)
  submit_now : string
}.

Definition failed_to_process : Response :=
  {| code := 500; body := Json_error "Failed to process request" None |}.

Definition email_service_not_configured : Response :=
  {| code := 500;
     body := Json_error
       "Email service not configured. Please contact the administrator."
       None |}.

Definition failed_to_send (details : option string) : Response :=
  {| code := 500;
     body := Json_error "Failed to send notification email" details |}.

Definition submit_handler (env : Env) (resend : Email -> SendResult)
    (req : SubmitRequest) (store : Store) : Outcome :=
  if negb (String.eqb (submit_method req) "POST") then
    {| response := {| code := 405; body := Json_error "Method not allowed" None |};
       store_after := store; outbox := [] |}
  else match submit_user req with
  | None =>
    {| response := {| code := 401; body := Json_error "Unauthorized" None |};
       store_after := store; outbox := [] |}
  | Some user =>
    match submit_json req with
    | None =>
      {| response := failed_to_process; store_after := store; outbox := [] |}
    | Some formData =>
      match email formData with
      | None =>
        (* [email.split] throws a TypeError, which the handler catches *)
        {| response := failed_to_process; store_after := store; outbox := [] |}
      | Some address =>
        let '(requestId, store1) :=
          generateRequestId address (submit_today req) store in
        let token := submit_token req in
        if negb (truthy (TRAINING_APPROVER_EMAIL env)) then
          {| response :=
               {| code := 500;
                  body := Json_error
                    "No approvers configured. Please contact the administrator."
                    None |};
             store_after := store1; outbox := [] |}
        else if negb (truthy (TRAINING_DISBURSER_EMAIL env)) then
          {| response :=
               {| code := 500;
                  body := Json_error
                    "No disbursers configured. Please contact the administrator."
                    None |};
             store_after := store1; outbox := [] |}
        else
          let requestData :=
            {| formData := formData;
               token := token;
               status := "pending";
               submittedAt := submit_now req;
               submittedBy := user_email user;
               decidedAt := None;
               comments := None;
               requestId := None |} in
          let store2 := <[requestId := Request requestData]> store1 in
          if negb (truthy (RESEND_API_KEY env)) then
            {| response := email_service_not_configured;
               store_after := store2; outbox := [] |}
          else
            let mail :=
              {| to := TRAINING_APPROVER_EMAIL env;
                 subject := "Training Funds Request " ++ requestId ++ " - "
                            ++ template (requester_name formData) |} in
            match resend mail with
            | SendError details =>
              {| response := failed_to_send details;
                 store_after := store2; outbox := [mail] |}
            | Sent emailId =>
              {| response :=
                   {| code := 200; body := Json_success requestId emailId |};
                 store_after := store2; outbox := [mail] |}
            end
      end
    end
  end.

(** ** The decision handler

    The repository holds two revisions of this handler.  They differ in
    how the messages are rendered (the earlier one adds up the costs
    itself, the later one calls [calculateCostBreakdown]); the control
    flow, which is what is modelled here, is the same in both. *)

Record DecideRequest := {
  decide_method : string;
  (** [new URLSearchParams(await req.text())], as its list of pairs *)
  decide_params : list (string * string);
  (** [new Date().toISOString()] for [decidedAt] *)
  decide_now : string
}.

(** [params.get(name)]: the first value under [name], or [null]. *)
Fixpoint params_get (name : string) (params : list (string * string))
  : option string :=
  match params with
  | (k, v) :: rest => if String.eqb k name then Some v else params_get name rest
  | [] => None
  end.

Record DecideForm := {
  form_requestId : option string;
  form_token : option string;
  form_decision : option string;
  form_comments : string
}.

Definition parseFormData (params : list (string * string)) : DecideForm :=
  {| form_requestId := params_get "requestId" params;
     form_token := params_get "token" params;
     form_decision := params_get "decision" params;
     form_comments :=
       let c := params_get "comments" params in
       if truthy c then default EmptyString c else EmptyString |}.

(** [JSON.parse] of the text of a sequence number gives that number when
    it is finite; "NaN" and "Infinity" are not JSON. *)
Definition is_json_number (x : JS.number) : bool :=
  match x with
  | S754_zero _ | S754_finite _ _ _ => true
  | _ => false
  end.

Definition confirmation (decision requestId : string) : Response :=
  {| code := 200; body := Html_confirmation decision requestId |}.

(** The first half of the handler, up to the test of the stored status:
    either the response that ends the request, or the identifier, the
    decision, the comments and the record read from the store. *)
Definition decide_check (req : DecideRequest) (store : Store)
  : Response + (string * string * string * RequestData) :=
  if negb (String.eqb (decide_method req) "POST") then
    inl {| code := 405; body := Plain "Method not allowed" |}
  else
    let form := parseFormData (decide_params req) in
    match form_requestId form, form_token form, form_decision form with
    | Some (String r rs), Some (String t ts), Some (String d ds) =>
      let requestId := String r rs in
      let token' := String t ts in
      let decision := String d ds in
      let comments := form_comments form in
      if negb (String.eqb decision "accepted" || String.eqb decision "sent_back"
               || String.eqb decision "rejected") then
        inl {| code := 400; body := Plain "Invalid decision value" |}
      else if (String.eqb decision "sent_back" || String.eqb decision "rejected")
              && negb (match trim comments with String _ _ => true | _ => false end)
      then
        inl {| code := 400; body := Html_comments_required |}
      else
        match store !! requestId with
        | None => inl {| code := 404; body := Plain "Request not found" |}
        | Some (Sequence x) =>
          if is_json_number x
          then (* a number has no [token] *)
               inl {| code := 403; body := Plain "Invalid token" |}
          else (* [JSON.parse] throws *)
               inl {| code := 500; body := Plain "Internal server error" |}
        | Some (Request requestData) =>
          if negb (String.eqb (token requestData) token') then
            inl {| code := 403; body := Plain "Invalid token" |}
          else if negb (String.eqb (status requestData) "pending") then
            inl {| code := 400;
                   body := Html_already_processed (status requestData) |}
          else inr (requestId, decision, comments, requestData)
        end
    | _, _, _ => inl {| code := 400; body := Plain "Missing required fields" |}
    end.

(** The record as updated in memory before it is written back. *)
Definition decided (requestId decision comments now : string)
    (requestData : RequestData) : RequestData :=
  {| formData := formData requestData;
     token := token requestData;
     status := decision;
     submittedAt := submittedAt requestData;
     submittedBy := submittedBy requestData;
     decidedAt := Some now;
     comments := Some comments;
     requestId := Some requestId |}.

Definition status_label (decision : string) : string :=
  if String.eqb decision "accepted" then "Accepted"
  else if String.eqb decision "sent_back" then "Sent Back"
  else if String.eqb decision "rejected" then "Rejected"
  else "undefined".

(** The second half: [store.set], then the notifications, whose failures
    are only logged, then the confirmation page. *)
Definition decide_commit (env : Env) (resend : Email -> SendResult)
    (req : DecideRequest) (requestId decision comments : string)
    (requestData : RequestData) (store : Store) : Outcome :=
  let requestData' :=
    decided requestId decision comments (decide_now req) requestData in
  let store' := <[requestId := Request requestData']> store in
  if negb (truthy (RESEND_API_KEY env)) then
    {| response := confirmation decision requestId;
       store_after := store'; outbox := [] |}
  else
    let to_requester :=
      {| to := email (formData requestData');
         subject := "Training Request " ++ requestId ++ " - "
                    ++ status_label decision |} in
    let _ := resend to_requester in
    let to_disburser :=
      {| to := TRAINING_DISBURSER_EMAIL env;
         subject := "[ACTION REQUIRED] Approved: Training Request "
                    ++ requestId ++ " - "
                    ++ template (requester_name (formData requestData')) |} in
    if String.eqb decision "accepted" && truthy (TRAINING_DISBURSER_EMAIL env)
    then
      let _ := resend to_disburser in
      {| response := confirmation decision requestId;
         store_after := store'; outbox := [to_requester; to_disburser] |}
    else
      {| response := confirmation decision requestId;
         store_after := store'; outbox := [to_requester] |}.

Definition decide_handler (env : Env) (resend : Email -> SendResult)
    (req : DecideRequest) (store : Store) : Outcome :=
  match decide_check req store with
  | inl early => {| response := early; store_after := store; outbox := [] |}
  | inr (requestId, decision, comments, requestData) =>
      decide_commit env resend req requestId decision comments requestData store
  end.

(** ** Overlapping invocations

    Each invocation of a handler runs on its own; what they share is the
    store, and an invocation can be overtaken by another at each [await]
    of a store operation.  A process is an invocation together with how
    far it has got; a schedule names, step by step, the process that
    performs its next store operation. *)

Section Interleaving.
Context {Proc : Type}.
Variable step : Proc -> Store -> Proc * Store.

Fixpoint run (schedule : list nat) (procs : list Proc) (store : Store)
  : list Proc * Store :=
  match schedule with
  | [] => (procs, store)
  | i :: rest =>
      match procs !! i with
      | Some p =>
          let '(p', store') := step p store in
          run rest (<[i := p']> procs) store'
      | None => run rest procs store
      end
  end.
End Interleaving.

(** [generateRequestId] has two store operations: the [get] of the
    sequence key and the [set] of the new sequence number. *)
Inductive AllocPc :=
  | AllocStart
  | AllocRead (sequence : JS.number)
  | AllocDone (id : string).

Record AllocProc := {
  alloc_email : string;
  alloc_today : string;
  alloc_pc : AllocPc
}.

Definition alloc_step (p : AllocProc) (store : Store) : AllocProc * Store :=
  let prefix := id_prefix (alloc_email p) (alloc_today p) in
  let sequenceKey := sequence_key prefix in
  match alloc_pc p with
  | AllocStart =>
      ({| alloc_email := alloc_email p; alloc_today := alloc_today p;
          alloc_pc := AllocRead (next_sequence (store !! sequenceKey)) |},
       store)
  | AllocRead sequence =>
      ({| alloc_email := alloc_email p; alloc_today := alloc_today p;
          alloc_pc := AllocDone (prefix ++ "-" ++ JS.toString sequence) |},
       <[sequenceKey := Sequence sequence]> store)
  | AllocDone _ => (p, store)
  end.

(** The decision handler has two store operations as well: the [get] of
    the record, followed by the checks, and the [set] of the updated
    record, followed by the notifications and the response. *)
Inductive DecidePc :=
  | DecideStart
  | DecideChecked (requestId decision comments : string)
                  (requestData : RequestData)
  | DecideDone (response : Response).

Record DecideProc := {
  proc_env : Env;
  proc_resend : Email -> SendResult;
  proc_request : DecideRequest;
  proc_pc : DecidePc
}.

Definition decide_step (p : DecideProc) (store : Store)
  : DecideProc * Store :=
  let at_pc pc :=
    {| proc_env := proc_env p; proc_resend := proc_resend p;
       proc_request := proc_request p; proc_pc := pc |} in
  match proc_pc p with
  | DecideStart =>
      match decide_check (proc_request p) store with
      | inl early => (at_pc (DecideDone early), store)
      | inr (requestId, decision, comments, requestData) =>
          (at_pc (DecideChecked requestId decision comments requestData), store)
      end
  | DecideChecked requestId decision comments requestData =>
      let out := decide_commit (proc_env p) (proc_resend p) (proc_request p)
                   requestId decision comments requestData store in
      (at_pc (DecideDone (response out)), store_after out)
  | DecideDone _ => (p, store)
  end.

(** ** Sample forms and the identity of the totals *)

(** A form whose three fractional amounts are split between the two
    lists: the registration fee is paid ahead, hotel and airfare are
    reimbursed. *)
Definition drift_form : FormData :=
  {| email := Some "alice@x.org";
     requester_name := Some "Alice";
     registration_fee := Some "0.1";
     hotel_cost := None;
     hotel_total := Some "0.2";
     flight_cost := Some "0.3";
     mileage_needed := false;
     mileage_miles := None;
     mileage_total := None;
     meals_needed := false;
     meals_total := None;
     pay_ahead_registration := true;
     pay_ahead_hotel := false;
     pay_ahead_flight := false |}.

(** The form of the specification's example. *)
Definition example_form : FormData :=
  {| email := Some "alice@x.org";
     requester_name := Some "Alice";
     registration_fee := Some "120";
     hotel_cost := None;
     hotel_total := Some "300";
     flight_cost := None;
     mileage_needed := true;
     mileage_miles := None;
     mileage_total := Some "70";
     meals_needed := false;
     meals_total := None;
     pay_ahead_registration := true;
     pay_ahead_hotel := false;
     pay_ahead_flight := false |}.

(** [prepaidTotal + reimbursementTotal == totalCost] *)
Definition totals_agree (b : CostBreakdown) : Prop :=
  JS.eq (JS.add (prepaidTotal b) (reimbursementTotal b)) (totalCost b) = true.

(** A non-negative whole amount, small enough for sums of five of them
    to stay below 2^53. *)
Definition whole_amount (x : JS.number) : Prop :=
  exists n, 0 <= n <= 2 ^ 50 /\ x = JS.of_Z n.


(** ** Sequential allocation *)

(** The count that a sequence key stands for: an absent key stands for 0,
    a stored sequence number for itself. *)
Definition stored_count (existing : option Blob) (c : Z) : Prop :=
  0 <= c /\ (existing = None /\ c = 0 \/ existing = Some (Sequence (JS.of_Z c))).

(** [generateRequestId] called once for each instant of [todays], one
    call after the other. *)
Fixpoint allocate_all (email : string) (todays : list string) (store : Store)
  : list string * Store :=
  match todays with
  | [] => ([], store)
  | today :: rest =>
      let '(id, store1) := generateRequestId email today store in
      let '(ids, store2) := allocate_all email rest store1 in
      (id :: ids, store2)
  end.

(** A string that does not start with the letter s; [String(x)] is one,
    whatever the number. *)
Definition starts_plainly (s : string) : Prop :=
  exists c r, s = String c r /\ c <> "s"%char.

(** ** Lifecycle of a request *)

(** The three decisions, which are also the terminal statuses. *)
Definition terminal (s : string) : Prop :=
  s = "accepted" \/ s = "sent_back" \/ s = "rejected".

(** A record that is no longer pending carries the instant of its
    decision and a terminal status. *)
Definition lifecycle_ok (r : RequestData) : Prop :=
  status r <> "pending" -> is_Some (decidedAt r) /\ terminal (status r).

(** Every record of the store is in order. *)
Definition store_ok (store : Store) : Prop :=
  forall id r, store !! id = Some (Request r) -> lifecycle_ok r.

(** An invocation of one of the two handlers. *)
Inductive Op :=
  | Submit (env : Env) (resend : Email -> SendResult) (req : SubmitRequest)
  | Decide (env : Env) (resend : Email -> SendResult) (req : DecideRequest).

Definition apply_op (store : Store) (op : Op) : Store :=
  match op with
  | Submit env resend req => store_after (submit_handler env resend req store)
  | Decide env resend req => store_after (decide_handler env resend req store)
  end.

(** The store after a sequence of invocations, each one complete before
    the next begins. *)
Definition run_ops (ops : list Op) (store : Store) : Store :=
  fold_left apply_op ops store.

(** A decision request that passes the validation of its fields: a POST
    with a non-empty identifier and token, one of the three decisions, and,
    unless the decision is to accept, comments in ASCII that are not
    blank. *)
Definition well_formed (req : DecideRequest)
    (id tok decision comments : string) : Prop :=
  decide_method req = "POST"
  /\ form_requestId (parseFormData (decide_params req)) = Some id
  /\ form_token (parseFormData (decide_params req)) = Some tok
  /\ form_decision (parseFormData (decide_params req)) = Some decision
  /\ form_comments (parseFormData (decide_params req)) = comments
  /\ id <> EmptyString /\ tok <> EmptyString /\ terminal decision
  /\ (decision <> "accepted" ->
      ascii_text comments = true /\ trim comments <> EmptyString).

(** The request that the decision form of the e-mailed link posts. *)
Definition decide_request (id tok decision comments now : string)
  : DecideRequest :=
  {| decide_method := "POST";
     decide_params := [("requestId", id); ("token", tok);
                       ("decision", decision); ("comments", comments)];
     decide_now := now |}.

Definition already_processed (status : string) : Response :=
  {| code := 400; body := Html_already_processed status |}.

Definition invalid_token : Response :=
  {| code := 403; body := Plain "Invalid token" |}.

Definition request_not_found : Response :=
  {| code := 404; body := Plain "Request not found" |}.

Definition internal_server_error : Response :=
  {| code := 500; body := Plain "Internal server error" |}.

(** No record of the store carries the token of the request. *)
Definition no_token_matches (req : DecideRequest) (store : Store) : Prop :=
  forall k r, store !! k = Some (Request r) ->
    form_token (parseFormData (decide_params req)) <> Some (token r).

(** ** Sample data *)

Definition sample_env : Env :=
  {| TRAINING_APPROVER_EMAIL := Some "approver@reva16.org";
     TRAINING_DISBURSER_EMAIL := Some "disburser@reva16.org";
     RESEND_API_KEY := Some "re_key" |}.

(** A notifier that delivers every message. *)
Definition delivering : Email -> SendResult := fun _ => Sent (Some "msg-1").

(** A notifier that fails on every message. *)
Definition failing : Email -> SendResult :=
  fun _ => SendError (Some "Unable to fetch data").

Definition sample_token : string :=
  "5f2a9c0e4b7d1836a1c4e9f07b3d2c685f2a9c0e4b7d1836a1c4e9f07b3d2c68".

Definition sample_submission : SubmitRequest :=
  {| submit_method := "POST";
     submit_user := Some {| user_email := Some "alice@reva16.org" |};
     submit_json := Some example_form;
     submit_today := "2025-03-15T09:00:00.000Z";
     submit_token := sample_token;
     submit_now := "2025-03-15T09:00:00.001Z" |}.

Definition sample_record : RequestData :=
  {| formData := example_form;
     token := sample_token;
     status := "pending";
     submittedAt := "2025-03-15T09:00:00.001Z";
     submittedBy := Some "alice@reva16.org";
     decidedAt := None;
     comments := None;
     requestId := None |}.

Definition sample_store : Store :=
  <["alice-20250315-1" := Request sample_record]>
    (<["sequence-alice-20250315" := Sequence (JS.of_Z 1)]> ∅).

Definition sample_accept : DecideRequest :=
  decide_request "alice-20250315-1" sample_token "accepted" EmptyString
                 "2025-03-16T10:00:00.000Z".

(** The sample record once [sample_accept] has been applied to it. *)
Definition sample_accepted : RequestData :=
  decided "alice-20250315-1" "accepted" EmptyString "2025-03-16T10:00:00.000Z"
          sample_record.

Definition sample_reject : DecideRequest :=
  decide_request "alice-20250315-1" sample_token "rejected" "Over budget"
                 "2025-03-16T10:00:00.500Z".

Definition sample_wrong_token : DecideRequest :=
  decide_request "alice-20250315-1" "0000" "accepted" EmptyString
                 "2025-03-16T10:00:00.000Z".

(** A decision request whose id is the sequence key of the sample
    store. *)
Definition sample_sequence_key : DecideRequest :=
  decide_request "sequence-alice-20250315" "0000" "accepted" EmptyString
                 "2025-03-16T10:00:00.000Z".

(** ** Two overlapping invocations *)

(** How many steps of a schedule belong to process [i]. *)
Fixpoint steps_of (i : nat) (schedule : list nat) : nat :=
  match schedule with
  | [] => 0
  | j :: rest => (if Nat.eqb i j then 1 else 0) + steps_of i rest
  end.

(** A schedule in which each of two processes performs its two store
    operations, in any interleaving. *)
Definition complete (schedule : list nat) : Prop :=
  length schedule = 4%nat
  /\ steps_of 0 schedule = 2%nat /\ steps_of 1 schedule = 2%nat.

(** One process is done before the other starts. *)
Definition serial (schedule : list nat) : Prop :=
  schedule = [0; 0; 1; 1]%nat \/ schedule = [1; 1; 0; 0]%nat.

Definition allocation (email today : string) : AllocProc :=
  {| alloc_email := email; alloc_today := today; alloc_pc := AllocStart |}.

(** The id that a finished allocation returned. *)
Definition allocated (p : AllocProc) : option string :=
  match alloc_pc p with
  | AllocDone id => Some id
  | _ => None
  end.

Definition decision (env : Env) (resend : Email -> SendResult)
    (req : DecideRequest) : DecideProc :=
  {| proc_env := env; proc_resend := resend; proc_request := req;
     proc_pc := DecideStart |}.

(** The response that a finished decision returned. *)
Definition responded (p : DecideProc) : option Response :=
  match proc_pc p with
  | DecideDone r => Some r
  | _ => None
  end.

(** ** More on the cost breakdown *)

(** The amounts of a list of items, added from left to right. *)
Definition sum_amounts (items : list Item) : JS.number :=
  fold_left (fun sum it => JS.add sum (amount it)) items JS.zero.

(** A form with another value in one field. *)
Definition with_hotel_total (v : option string) (data : FormData) : FormData :=
  {| email := email data;
     requester_name := requester_name data;
     registration_fee := registration_fee data;
     hotel_cost := hotel_cost data;
     hotel_total := v;
     flight_cost := flight_cost data;
     mileage_needed := mileage_needed data;
     mileage_miles := mileage_miles data;
     mileage_total := mileage_total data;
     meals_needed := meals_needed data;
     meals_total := meals_total data;
     pay_ahead_registration := pay_ahead_registration data;
     pay_ahead_hotel := pay_ahead_hotel data;
     pay_ahead_flight := pay_ahead_flight data |}.

Definition with_mileage_total (v : option string) (data : FormData) : FormData :=
  {| email := email data;
     requester_name := requester_name data;
     registration_fee := registration_fee data;
     hotel_cost := hotel_cost data;
     hotel_total := hotel_total data;
     flight_cost := flight_cost data;
     mileage_needed := mileage_needed data;
     mileage_miles := mileage_miles data;
     mileage_total := v;
     meals_needed := meals_needed data;
     meals_total := meals_total data;
     pay_ahead_registration := pay_ahead_registration data;
     pay_ahead_hotel := pay_ahead_hotel data;
     pay_ahead_flight := pay_ahead_flight data |}.

Definition with_meals_total (v : option string) (data : FormData) : FormData :=
  {| email := email data;
     requester_name := requester_name data;
     registration_fee := registration_fee data;
     hotel_cost := hotel_cost data;
     hotel_total := hotel_total data;
     flight_cost := flight_cost data;
     mileage_needed := mileage_needed data;
     mileage_miles := mileage_miles data;
     mileage_total := mileage_total data;
     meals_needed := meals_needed data;
     meals_total := v;
     pay_ahead_registration := pay_ahead_registration data;
     pay_ahead_hotel := pay_ahead_hotel data;
     pay_ahead_flight := pay_ahead_flight data |}.

(** An amount of the breakdown: +0, or a number that is neither zero nor
    NaN. *)
Definition plain_amount (x : JS.number) : Prop :=
  x = JS.zero \/ JS.truthy x = true.

(** A form whose stale [hotel_cost] differs from its [hotel_total], and
    whose mileage and meals totals are filled in though neither is
    needed. *)
Definition stale_form : FormData :=
  {| email := Some "alice@x.org";
     requester_name := Some "Alice";
     registration_fee := Some "120";
     hotel_cost := Some "250.00";
     hotel_total := Some "300.00";
     flight_cost := Some EmptyString;
     mileage_needed := false;
     mileage_miles := Some "100";
     mileage_total := Some "70.00";
     meals_needed := false;
     meals_total := Some "59";
     pay_ahead_registration := true;
     pay_ahead_hotel := true;
     pay_ahead_flight := false |}.

(** A field that parses to a non-negative whole number, or to no number
    at all (an untouched field holds the empty string). *)
Definition whole_or_blank (x : JS.number) : Prop :=
  x = JS.NaN \/ whole_amount x.

(** ** The totals previewed by the form

    The page that posts the form shows its own totals before submission
    ([parseNumber] and the memoized totals of [TrainingFundsRequest]). *)
Module UI.

(** [isNaN(num) ? 0 : num] after [parseFloat(value)] *)
Definition parseNumber (value : option string) : JS.number :=
  match parseFloat value with
  | S754_nan => JS.zero
  | num => num
  end.

Record Totals := {
  prepaidTotal : JS.number;
  reimbursementTotal : JS.number;
  grandTotal : JS.number
}.

Definition totals (formData : FormData) : Totals :=
  let registration := parseNumber (registration_fee formData) in
  let hotel := parseNumber (hotel_total formData) in
  let flight := parseNumber (flight_cost formData) in
  let mileage :=
    if mileage_needed formData
    then parseNumber (mileage_total formData) else JS.zero in
  let meals :=
    if meals_needed formData
    then parseNumber (meals_total formData) else JS.zero in
  let prepaid :=
    JS.add
      (JS.add (if pay_ahead_registration formData then registration else JS.zero)
              (if pay_ahead_hotel formData then hotel else JS.zero))
      (if pay_ahead_flight formData then flight else JS.zero) in
  let reimbursement :=
    JS.add
      (JS.add
         (JS.add
            (JS.add
               (if negb (pay_ahead_registration formData)
                then registration else JS.zero)
               (if negb (pay_ahead_hotel formData) then hotel else JS.zero))
            (if negb (pay_ahead_flight formData) then flight else JS.zero))
         mileage)
      meals in
  {| prepaidTotal := prepaid;
     reimbursementTotal := reimbursement;
     grandTotal :=
       JS.add (JS.add (JS.add (JS.add registration hotel) flight) mileage) meals |}.

End UI.

(** ** More on request ids *)

(** No dash in a string. *)
Fixpoint dash_free (s : string) : bool :=
  match s with
  | String c r => negb (Ascii.eqb c "-") && dash_free r
  | EmptyString => true
  end.

(** No "@" in a string. *)
Fixpoint at_free (s : string) : bool :=
  match s with
  | String c r => negb (Ascii.eqb c "@") && at_free r
  | EmptyString => true
  end.

(** [n] copies of an id. *)
Definition same_id (n : nat) (id : string) : list string := replicate n id.

(** A sequence key whose text is not that of a number any more: the text
    of a request record, or of NaN or an infinity. *)
Definition not_a_count (existing : option Blob) : Prop :=
  (exists r, existing = Some (Request r))
  \/ existing = Some (Sequence JS.NaN)
  \/ (exists s, existing = Some (Sequence (S754_infinity s))).

(** ** More on the two handlers *)

(** The same submission made under another session. *)
Definition with_user (req : SubmitRequest) (user : option User)
  : SubmitRequest :=
  {| submit_method := submit_method req;
     submit_user := user;
     submit_json := submit_json req;
     submit_today := submit_today req;
     submit_token := submit_token req;
     submit_now := submit_now req |}.

Definition with_submittedBy (r : RequestData) (by_ : option string)
  : RequestData :=
  {| formData := formData r;
     token := token r;
     status := status r;
     submittedAt := submittedAt r;
     submittedBy := by_;
     decidedAt := decidedAt r;
     comments := comments r;
     requestId := requestId r |}.

(** Nothing but white space. *)
Fixpoint blank (s : string) : bool :=
  match s with
  | String c r => JS.is_white c && blank r
  | EmptyString => true
  end.

Definition comments_required : Response :=
  {| code := 400; body := Html_comments_required |}.

(** The message to the requester and the message to the disburser that
    the decision handler composes for a decided record. *)
Definition requester_mail (id decision : string) (r : RequestData) : Email :=
  {| to := email (formData r);
     subject := "Training Request " ++ id ++ " - " ++ status_label decision |}.

Definition disburser_mail (env : Env) (id : string) (r : RequestData)
  : Email :=
  {| to := TRAINING_DISBURSER_EMAIL env;
     subject := "[ACTION REQUIRED] Approved: Training Request "
                ++ id ++ " - " ++ template (requester_name (formData r)) |}.


(** ** Sessions

    The OAuth callback signs a session and sets it as the cookie
    [session]; the edge function, [me] and [verifyUser] of the submission
    handler read the cookie back and verify it.  A signed session is kept
    here as the text of the cookie; [jwtVerify] is a function from that
    text to the payload, or to nothing when it throws (bad signature,
    expired). *)

(** [s.endsWith(suffix)] *)
Definition ends_with (suffix s : string) : bool :=
  let n := String.length s in
  let m := String.length suffix in
  (m <=? n)%nat && String.eqb (String.substring (n - m) m s) suffix.

(** What follows [p] in [s] when [s] starts with [p]. *)
Fixpoint after_prefix (p s : string) : option string :=
  match p, s with
  | EmptyString, _ => Some s
  | String a p', String b s' =>
      if Ascii.eqb a b then after_prefix p' s' else None
  | String _ _, EmptyString => None
  end.

(** The longest run of characters other than ";" at the head of [s]:
    what [[^;]+] takes, being greedy. *)
Fixpoint until_semicolon (s : string) : string :=
  match s with
  | String c r =>
      if Ascii.eqb c ";" then EmptyString else String c (until_semicolon r)
  | EmptyString => EmptyString
  end.

(** [cookies.match(/session=([^;]+)/)]: the group of the leftmost match,
    or nothing when there is no match. *)
Fixpoint session_cookie (cookies : string) : option string :=
  match cookies with
  | EmptyString => None
  | String c r =>
      match after_prefix "session=" (String c r) with
      | Some rest =>
          match until_semicolon rest with
          | EmptyString => session_cookie r
          | value => Some value
          end
      | None => session_cookie r
      end
  end.

(** The payload of a session; any of the fields may be missing from a
    token that verifies. *)
Record Payload := {
  payload_email : option string;
  payload_name : option string;
  payload_picture : option string;
  payload_sub : option string;
  payload_roles : option (list string)
}.

(** The answer of Google's user-info endpoint. *)
Record Profile := {
  (** [profile.error] is set *)
  profile_error : bool;
  profile_email : option string;
  profile_name : option string;
  profile_picture : option string;
  profile_id : option string
}.

Definition domain : string := "@reva16.org".

(** [USER_ROLES[email]].  The table has one entry of its own; what it
    inherits as an object is under names without "@", which no address
    that has passed the domain test can be. *)
Definition USER_ROLES (address : string) : option (list string) :=
  if String.eqb address "dzager@reva16.org"
  then Some ["admin"; "approver"; "disburser"]
  else None.

Inductive CallbackResult :=
  | OAuthError (error : string)
  | MissingCode
  | TokenExchangeFailed
  | ProfileFailed
  | AccessDenied (address : option string)
  (** 302 to "/" with the signed session as cookie *)
  | SignedIn (session : Payload)
  | AuthenticationFailed.

Definition statusCode (r : CallbackResult) : Z :=
  match r with
  | OAuthError _ | MissingCode | TokenExchangeFailed | ProfileFailed => 400
  | AccessDenied _ => 403
  | SignedIn _ => 302
  | AuthenticationFailed => 500
  end.

(** The OAuth callback.  [code] and [error] are the two query parameters;
    [tokenError] tells whether the token exchange answered with an error,
    and [profile] is the answer of the user-info endpoint; either is
    [None] when the fetch or the parsing of its answer throws. *)
Definition oauth_callback (code error : option string)
    (tokenError : option bool) (profile : option Profile) : CallbackResult :=
  if truthy error then OAuthError (default EmptyString error)
  else if negb (truthy code) then MissingCode
  else match tokenError with
  | None => AuthenticationFailed
  | Some true => TokenExchangeFailed
  | Some false =>
    match profile with
    | None => AuthenticationFailed
    | Some profile =>
      if profile_error profile then ProfileFailed
      else match profile_email profile with
      | None => AccessDenied None
      | Some address =>
        if negb (ends_with domain address) then AccessDenied (Some address)
        else
          let userRoles := default [] (USER_ROLES address) in
          SignedIn {| payload_email := Some address;
                      payload_name := profile_name profile;
                      payload_picture := profile_picture profile;
                      payload_sub := profile_id profile;
                      payload_roles := Some userRoles |}
      end
    end
  end.

(** [payload.email?.endsWith("@reva16.org")] *)
Definition in_domain (payload : Payload) : bool :=
  match payload_email payload with
  | Some address => ends_with domain address
  | None => false
  end.

Inductive EdgeResult :=
  | Next
  | Forbidden
  | ConfigurationError
  | RedirectToGoogle (client_id : string).

(** The edge function in front of every path. *)
Definition auth (verify : string -> option Payload) (pathname : string)
    (cookie : option string) (GOOGLE_CLIENT_ID : option string)
  : EdgeResult :=
  if String.prefix "/.netlify/functions/oauth_callback" pathname then Next
  else if String.prefix "/.netlify/functions/" pathname
          || String.prefix "/api/" pathname then Next
  else
    let cookies := if truthy cookie then default EmptyString cookie
                   else EmptyString in
    let unauthenticated :=
      match GOOGLE_CLIENT_ID with
      | Some (String c r) => RedirectToGoogle (String c r)
      | _ => ConfigurationError
      end in
    match session_cookie cookies with
    | Some value =>
        match verify value with
        | Some payload => if in_domain payload then Next else Forbidden
        | None => unauthenticated
        end
    | None => unauthenticated
    end.

Inductive MeResult :=
  | NotAuthenticated
  | InvalidSession
  | Me (address name picture sub : option string) (roles : list string).

(** The function behind [/.netlify/functions/me]. *)
Definition me (verify : string -> option Payload) (cookie : option string)
  : MeResult :=
  let cookies := if truthy cookie then default EmptyString cookie
                 else EmptyString in
  match session_cookie cookies with
  | None => NotAuthenticated
  | Some value =>
      match verify value with
      | Some payload =>
          Me (payload_email payload) (payload_name payload)
             (payload_picture payload) (payload_sub payload)
             (default [] (payload_roles payload))
      | None => InvalidSession
      end
  end.

(** [verifyUser] of the submission handler. *)
Definition verifyUser (verify : string -> option Payload)
    (cookies : option string) : option Payload :=
  if negb (truthy cookies) then None
  else match session_cookie (default EmptyString cookies) with
  | None => None
  | Some value => verify value
  end.

(** [user?.roles?.includes(role) ?? false], where [user] is what [me]
    answered, or [null] when the answer was not a 200. *)
Definition hasRole (user : MeResult) (role : string) : bool :=
  match user with
  | Me _ _ _ _ roles => existsb (String.eqb role) roles
  | _ => false
  end.

Definition isAdmin (user : MeResult) : bool := hasRole user "admin".

(** No ";" in a string. *)
Fixpoint semicolon_free (s : string) : bool :=
  match s with
  | String c r => negb (Ascii.eqb c ";") && semicolon_free r
  | EmptyString => true
  end.

(** Nothing, or something that starts with ";". *)
Definition ends_value (rest : string) : Prop :=
  rest = EmptyString \/ exists r, rest = String ";" r.

Definition sample_profile : Profile :=
  {| profile_error := false;
     profile_email := Some "dzager@reva16.org";
     profile_name := Some "D Zager";
     profile_picture := None;
     profile_id := Some "1001" |}.

Definition sample_session : Payload :=
  {| payload_email := Some "dzager@reva16.org";
     payload_name := Some "D Zager";
     payload_picture := None;
     payload_sub := Some "1001";
     payload_roles := Some ["admin"; "approver"; "disburser"] |}.

(** A verifier that accepts one text, as the session above. *)
Definition sample_verify (value : string) : option Payload :=
  if String.eqb value "header.payload.signature" then Some sample_session
  else None.

(** * Numbers: reading and printing on known values *)
Module JSExamples.
Import JS.

Example parseFloat_tenth :
  parseFloat "0.1" = S754_finite false 7205759403792794 (-56).
Proof. vm_compute. reflexivity. Qed.

Example parseFloat_prefix : parseFloat " -12.5e2xyz" = parseFloat "-1250".
Proof. vm_compute. reflexivity. Qed.

Example parseFloat_none : parseFloat "abc" = NaN /\ parseFloat "." = NaN.
Proof. vm_compute. auto. Qed.

Example parseInt_prefix : parseInt " 42abc" = of_Z 42.
Proof. vm_compute. reflexivity. Qed.

Example parseInt_rounds : parseInt "9007199254740993" = of_Z (2 ^ 53).
Proof. vm_compute. reflexivity. Qed.

Example toString_fractions :
  toString (add (parseFloat "0.1") (parseFloat "0.2")) = "0.30000000000000004"
  /\ toString (parseFloat "4.35") = "4.35"
  /\ toString (parseFloat "0.000001") = "0.000001"
  /\ toString (parseFloat "1e-7") = "1e-7"
  /\ toString (parseFloat "-1.5") = "-1.5".
Proof. vm_compute. auto 6. Qed.

Example toString_large :
  toString (of_Z (2 ^ 53)) = "9007199254740992"
  /\ toString (of_Z (2 ^ 60)) = "1152921504606847000"
  /\ toString (parseFloat "1e21") = "1e+21"
  /\ toString (of_Z (2 ^ 70)) = "1.1805916207174113e+21".
Proof. vm_compute. auto 6. Qed.

(** Above 2^53 adding one no longer changes an integer. *)
Example add_one_saturates : add (of_Z (2 ^ 53)) (of_Z 1) = of_Z (2 ^ 53).
Proof. vm_compute. reflexivity. Qed.
End JSExamples.

(** * Integers in binary64

    Integers below 2^53 are numbers of their own, and adding two of them
    is exact while the sum stays below 2^53. *)
Module JSFacts.
Import JS.

Lemma digits2_pos_size p : digits2_pos p = Pos.size p.
Proof. induction p; simpl; congruence. Qed.

Lemma digits2_pos_log2 p : Zpos (digits2_pos p) = Z.log2 (Zpos p) + 1.
Proof.
  rewrite digits2_pos_size. destruct p; simpl; try reflexivity; lia.
Qed.

Lemma shr_1_even w :
  0 < w ->
  shr_1 {| shr_m := 2 * w; shr_r := false; shr_s := false |}
  = {| shr_m := w; shr_r := false; shr_s := false |}.
Proof. destruct w; try lia. intros _. reflexivity. Qed.

Lemma iter_shr_1_exact q : forall w,
  0 < w ->
  SpecFloat.iter_pos shr_1 q {| shr_m := w * 2 ^ Zpos q; shr_r := false; shr_s := false |}
  = {| shr_m := w; shr_r := false; shr_s := false |}.
Proof.
  induction q as [q IH | q IH |]; intros w Hw.
  - cbn [SpecFloat.iter_pos].
    replace (w * 2 ^ Zpos q~1) with (2 * ((w * 2 ^ Zpos q) * 2 ^ Zpos q)).
    2:{ replace (Zpos q~1) with (1 + Zpos q + Zpos q) by lia.
        rewrite !Z.pow_add_r, Z.pow_1_r by lia. ring. }
    rewrite shr_1_even by nia. rewrite IH by nia. apply IH. assumption.
  - cbn [SpecFloat.iter_pos].
    replace (w * 2 ^ Zpos q~0) with ((w * 2 ^ Zpos q) * 2 ^ Zpos q).
    2:{ replace (Zpos q~0) with (Zpos q + Zpos q) by lia.
        rewrite Z.pow_add_r by lia. ring. }
    rewrite IH by nia. apply IH. assumption.
  - cbn [SpecFloat.iter_pos]. rewrite Z.pow_1_r, Z.mul_comm. apply shr_1_even. assumption.
Qed.

Lemma fexp_normal d : -1021 <= d -> fexp prec emax d = d - 53.
Proof. unfold fexp, SpecFloat.emin, prec, emax. lia. Qed.

Lemma shr_fexp_canonical m e :
  Zpos (digits2_pos m) = 53 -> -1074 <= e ->
  shr_fexp prec emax (Zpos m) e loc_Exact
  = ({| shr_m := Zpos m; shr_r := false; shr_s := false |}, e).
Proof.
  intros Hd He. unfold shr_fexp. cbn [Zdigits2 shr_record_of_loc].
  rewrite Hd, fexp_normal by lia.
  replace (53 + e - 53 - e) with 0 by lia. reflexivity.
Qed.

Lemma binary_round_aux_canonical s m e :
  Zpos (digits2_pos m) = 53 -> -1074 <= e <= 971 ->
  binary_round_aux prec emax s (Zpos m) e loc_Exact = S754_finite s m e.
Proof.
  intros Hd He. unfold binary_round_aux.
  rewrite shr_fexp_canonical by lia.
  cbn [shr_m loc_of_shr_record round_nearest_even].
  rewrite shr_fexp_canonical by lia. cbn [shr_m].
  replace (e <=? emax - prec) with true; [reflexivity|].
  symmetry. apply Z.leb_le. unfold emax, prec. lia.
Qed.

Lemma log2_shift n k : 0 < n -> 0 <= k -> Z.log2 (n * 2 ^ k) = Z.log2 n + k.
Proof. intros. rewrite Z.log2_mul_pow2 by lia. lia. Qed.

Lemma binary_round_integer s (m : positive) n k :
  Zpos m = n * 2 ^ k -> 0 <= k -> 0 < n < 2 ^ 53 ->
  binary_round prec emax s m (- k)
  = S754_finite s (Z.to_pos (n * 2 ^ (52 - Z.log2 n))) (Z.log2 n - 52).
Proof.
  intros Hm Hk Hn.
  assert (Hlog : 0 <= Z.log2 n < 53).
  { split; [apply Z.log2_nonneg|]. apply Z.log2_lt_pow2; lia. }
  assert (Hdm : Zpos (digits2_pos m) = Z.log2 n + k + 1).
  { rewrite digits2_pos_log2, Hm, log2_shift by lia. lia. }
  assert (Hpos : 0 < n * 2 ^ (52 - Z.log2 n)).
  { apply Z.mul_pos_pos; [lia|]. apply Z.pow_pos_nonneg; lia. }
  assert (Hlc : Z.log2 (n * 2 ^ (52 - Z.log2 n)) = 52).
  { rewrite log2_shift by lia. lia. }
  destruct (n * 2 ^ (52 - Z.log2 n)) as [|c|c] eqn:Ec; try lia.
  assert (Hdc : Zpos (digits2_pos c) = 53).
  { rewrite digits2_pos_log2, Hlc. reflexivity. }
  cbn [Z.to_pos].
  unfold binary_round.
  rewrite Hdm, fexp_normal by lia.
  replace (Z.log2 n + k + 1 + - k - 53) with (Z.log2 n - 52) by lia.
  unfold shl_align.
  destruct (Z.log2 n - 52 - - k) as [|d|d] eqn:Hd.
  - (* already 53 bits *)
    replace (- k) with (Z.log2 n - 52) by lia.
    replace m with c.
    2:{ apply Pos2Z.inj. rewrite Hm, <- Ec. do 2 f_equal. lia. }
    apply binary_round_aux_canonical; [assumption|lia].
  - (* more than 53 bits: the low bits are zero and are shifted out *)
    unfold binary_round_aux, shr_fexp at 1. cbn [Zdigits2 shr_record_of_loc].
    rewrite Hdm, fexp_normal by lia.
    replace (Z.log2 n + k + 1 + - k - 53 - - k) with (Zpos d) by lia.
    cbn [shr].
    replace (Zpos m) with (Zpos c * 2 ^ Zpos d).
    2:{ rewrite Hm, <- Ec, <- Z.mul_assoc, <- Z.pow_add_r by lia.
        do 2 f_equal. lia. }
    rewrite iter_shr_1_exact by lia.
    cbn [shr_m loc_of_shr_record round_nearest_even].
    replace (- k + Zpos d) with (Z.log2 n - 52) by lia.
    rewrite shr_fexp_canonical by lia. cbn [shr_m].
    replace (Z.log2 n - 52 <=? emax - prec) with true; [reflexivity|].
    symmetry. apply Z.leb_le. unfold emax, prec. lia.
  - (* fewer than 53 bits: shift left *)
    replace (Pos.iter xO m d) with c.
    2:{ apply Pos2Z.inj.
        change (Pos.iter xO m d) with (shift_pos d m).
        rewrite shift_pos_correct, Zpower_pos_nat, Zpower_nat_Z,
          positive_nat_Z, Hm, <- Ec.
        replace (2 ^ Zpos d * (n * 2 ^ k)) with (n * (2 ^ k * 2 ^ Zpos d))
          by ring.
        rewrite <- Z.pow_add_r by lia. do 2 f_equal. lia. }
    apply binary_round_aux_canonical; [assumption|lia].
Qed.

Lemma of_Z_canon n : 0 < n < 2 ^ 53 -> of_Z n = canon n.
Proof.
  intros Hn. unfold of_Z, canon. destruct n as [|m|m]; try lia.
  cbn [binary_normalize].
  apply (binary_round_integer false m (Zpos m) 0); lia.
Qed.

Lemma binary_normalize_integer z n k :
  z = n * 2 ^ k -> 0 <= k -> 0 < n < 2 ^ 53 ->
  binary_normalize prec emax z (- k) false = of_Z n.
Proof.
  intros Hz Hk Hn. rewrite of_Z_canon by assumption.
  assert (0 < z).
  { subst z. apply Z.mul_pos_pos; [lia|]. apply Z.pow_pos_nonneg; lia. }
  destruct z as [|m|m]; try lia.
  cbn [binary_normalize]. apply binary_round_integer; assumption.
Qed.

Lemma shl_align_fst m e e' :
  e' <= e -> Zpos (fst (shl_align m e e')) = Zpos m * 2 ^ (e - e').
Proof.
  intros He. unfold shl_align.
  destruct (e' - e) as [|d|d] eqn:Hd; cbn [fst]; try lia.
  - replace (e - e') with 0 by lia. lia.
  - change (Pos.iter xO m d) with (shift_pos d m).
    rewrite shift_pos_correct, Zpower_pos_nat, Zpower_nat_Z, positive_nat_Z.
    rewrite Z.mul_comm. do 2 f_equal. lia.
Qed.

(** Addition of two integers is exact as long as the sum stays below
    2^53. *)
Lemma add_of_Z a b :
  0 <= a -> 0 <= b -> a + b < 2 ^ 53 ->
  add (of_Z a) (of_Z b) = of_Z (a + b).
Proof.
  intros Ha Hb Hab.
  destruct (Z.eq_dec a 0) as [->|Ha0].
  { destruct (Z.eq_dec b 0) as [->|Hb0]; [reflexivity|].
    rewrite Z.add_0_l, (of_Z_canon b) by lia. reflexivity. }
  destruct (Z.eq_dec b 0) as [->|Hb0].
  { rewrite Z.add_0_r, (of_Z_canon a) by lia. reflexivity. }
  assert (Hla : 0 <= Z.log2 a < 53).
  { split; [apply Z.log2_nonneg|]. apply Z.log2_lt_pow2; lia. }
  assert (Hlb : 0 <= Z.log2 b < 53).
  { split; [apply Z.log2_nonneg|]. apply Z.log2_lt_pow2; lia. }
  assert (Hpa : 0 < a * 2 ^ (52 - Z.log2 a)).
  { apply Z.mul_pos_pos; [lia|]. apply Z.pow_pos_nonneg; lia. }
  assert (Hpb : 0 < b * 2 ^ (52 - Z.log2 b)).
  { apply Z.mul_pos_pos; [lia|]. apply Z.pow_pos_nonneg; lia. }
  rewrite (of_Z_canon a), (of_Z_canon b) by lia.
  unfold add, canon, SFadd. cbn [cond_Zopp].
  rewrite !shl_align_fst by lia. rewrite !Z2Pos.id by lia.
  set (ez := Z.min (Z.log2 a - 52) (Z.log2 b - 52)).
  replace ez with (- (- ez)) at 3 by lia.
  apply binary_normalize_integer; [|lia|lia].
  rewrite Z.mul_add_distr_r, <- !Z.mul_assoc, <- !Z.pow_add_r by lia.
  f_equal; do 2 f_equal; lia.
Qed.

Lemma gt_of_Z_zero n : 0 <= n < 2 ^ 53 -> gt (of_Z n) zero = (0 <? n).
Proof.
  intros Hn. destruct (Z.eq_dec n 0) as [->|Hn0]; [reflexivity|].
  rewrite of_Z_canon by lia.
  replace (0 <? n) with true by (symmetry; apply Z.ltb_lt; lia).
  reflexivity.
Qed.
End JSFacts.

(** * Decimal digits *)
Module Digits.
Import JS.

Lemma take_digits_uint d : take_digits (NilEmpty.string_of_uint d) = (NilEmpty.string_of_uint d, EmptyString).
Proof. induction d; cbn; try rewrite IHd; reflexivity. Qed.

Lemma digits_value_uint d : forall acc,
  digits_value acc (NilEmpty.string_of_uint d)
  = acc * 10 ^ Z.of_N (DecimalPos.Unsigned.usize d)
    + Z.of_N (DecimalPos.Unsigned.of_lu (Decimal.rev d)).
Proof.
  induction d; intros acc;
    [cbn; lia | cbn [NilEmpty.string_of_uint digits_value DecimalPos.Unsigned.usize]..];
    unfold Decimal.rev; cbn [Decimal.revapp];
    rewrite (DecimalPos.Unsigned.of_lu_revapp d); rewrite IHd;
    rewrite N2Z.inj_succ, Z.pow_succ_r by lia;
    rewrite N2Z.inj_add, N2Z.inj_mul, N2Z.inj_pow;
    change (Z.of_N 10) with 10;
    set (P := 10 ^ Z.of_N (DecimalPos.Unsigned.usize d));
    set (R := Z.of_N (DecimalPos.Unsigned.of_lu (Decimal.rev d)));
    unfold digit_val;
    match goal with
    | |- context [Z.of_nat ?n] =>
        let v := eval vm_compute in (Z.of_nat n) in
        change (Z.of_nat n) with v
    end;
    match goal with
    | |- context [Z.of_N (DecimalPos.Unsigned.of_lu ?u)] =>
        let v := eval vm_compute in (Z.of_N (DecimalPos.Unsigned.of_lu u)) in
        change (Z.of_N (DecimalPos.Unsigned.of_lu u)) with v
    end;
    clearbody P R; ring.
Qed.

Lemma digits_value_decimal n : digits_value 0 (decimal n) = Z.of_N n.
Proof.
  unfold decimal. rewrite digits_value_uint.
  rewrite <- DecimalPos.Unsigned.of_uint_alt.
  change (Pos.of_uint (N.to_uint n)) with (N.of_uint (N.to_uint n)).
  rewrite DecimalN.Unsigned.of_to. lia.
Qed.

Lemma decimal_inj a b : decimal a = decimal b -> a = b.
Proof.
  intros H. apply N2Z.inj. rewrite <- !digits_value_decimal. congruence.
Qed.
End Digits.

(** * [String] and [parseInt] on integers *)
Module ToStringFacts.
Import JS JSFacts Digits.

Lemma to_uint_nonnil n : N.to_uint n <> Decimal.Nil.
Proof.
  destruct n; cbn; [discriminate|]. apply DecimalPos.Unsigned.to_uint_nonnil.
Qed.

(** The decimal digits of a number are not empty and start with a digit. *)
Lemma decimal_head n :
  exists c r, decimal n = String c r /\ is_digit c = true.
Proof.
  unfold decimal. pose proof (to_uint_nonnil n) as H.
  destruct (N.to_uint n); [congruence | cbn; eauto ..].
Qed.

Lemma is_digit_not_white c : is_digit c = true -> is_white c = false.
Proof.
  unfold is_digit, is_white. intros H.
  apply andb_true_iff in H as [H1 H2].
  apply Nat.leb_le in H1. apply Nat.leb_le in H2.
  apply orb_false_iff. split.
  - apply andb_false_iff. right. apply Nat.leb_gt. lia.
  - apply Nat.eqb_neq. lia.
Qed.

Lemma is_digit_not_sign c r :
  is_digit c = true -> take_sign (String c r) = (false, String c r).
Proof.
  intros H. unfold take_sign.
  destruct (Ascii.eqb_spec c "-") as [->|]; [discriminate|].
  destruct (Ascii.eqb_spec c "+") as [->|]; [discriminate|].
  destruct c as [[] [] [] [] [] [] [] []]; try reflexivity; congruence.
Qed.

Lemma parseInt_digits c r :
  is_digit c = true ->
  take_digits (String c r) = (String c r, EmptyString) ->
  parseInt (String c r) = of_decimal false (digits_value 0 (String c r)) 0.
Proof.
  intros Hc Ht. unfold parseInt. cbn [skip_white].
  rewrite (is_digit_not_white c Hc), (is_digit_not_sign c r Hc), Ht.
  reflexivity.
Qed.

Lemma parseInt_decimal n : parseInt (decimal n) = of_Z (Z.of_N n).
Proof.
  destruct (decimal_head n) as (c & r & E & Hc).
  pose proof (take_digits_uint (N.to_uint n)) as Ht.
  fold (decimal n) in Ht.
  pose proof (digits_value_decimal n) as Hv.
  rewrite E in *. rewrite parseInt_digits, Hv by assumption.
  destruct n as [|p]; [reflexivity|].
  cbn [Z.of_N of_decimal Z.leb Z.compare Z.pow Z.to_pos].
  unfold of_Z. cbn [binary_normalize]. rewrite Pos.mul_1_r. reflexivity.
Qed.

Lemma safe_integer_canon n :
  0 < n < 2 ^ 53 ->
  safe_integer (Z.to_pos (n * 2 ^ (52 - Z.log2 n))) (Z.log2 n - 52)
  = Some (Z.to_N n).
Proof.
  intros Hn.
  assert (Hlog : 0 <= Z.log2 n < 53).
  { split; [apply Z.log2_nonneg|]. apply Z.log2_lt_pow2; lia. }
  assert (Hp : 0 < 2 ^ (52 - Z.log2 n)) by (apply Z.pow_pos_nonneg; lia).
  unfold safe_integer, numerator, denominator.
  rewrite Z2Pos.id by nia.
  destruct (0 <=? Z.log2 n - 52) eqn:E.
  - apply Z.leb_le in E. replace (Z.log2 n - 52) with 0 by lia.
    replace (52 - Z.log2 n) with 0 by lia.
    rewrite Z.pow_0_r, !Z.mul_1_r, Z.mod_1_r, Z.div_1_r.
    replace (n <? 2 ^ 53) with true by (symmetry; apply Z.ltb_lt; lia).
    reflexivity.
  - replace (- (Z.log2 n - 52)) with (52 - Z.log2 n) by lia.
    rewrite Z.mod_mul, Z.div_mul by lia.
    replace (n <? 2 ^ 53) with true by (symmetry; apply Z.ltb_lt; lia).
    reflexivity.
Qed.

(** [String(n)] of an integer below 2^53 is its decimal digits. *)
Lemma toString_of_Z n :
  0 <= n < 2 ^ 53 -> toString (of_Z n) = decimal (Z.to_N n).
Proof.
  intros Hn. destruct (Z.eq_dec n 0) as [->|Hn0]; [reflexivity|].
  rewrite of_Z_canon by lia. unfold canon, toString, positive_toString.
  rewrite safe_integer_canon by lia. reflexivity.
Qed.

Lemma next_sequence_count c :
  0 <= c -> c + 1 < 2 ^ 53 ->
  next_sequence (Some (Sequence (of_Z c))) = of_Z (c + 1).
Proof.
  intros Hc Hc1. unfold next_sequence.
  rewrite toString_of_Z by lia.
  destruct (decimal_head (Z.to_N c)) as (ch & r & E & _).
  rewrite E, <- E, parseInt_decimal, Z2N.id by lia.
  apply add_of_Z; lia.
Qed.
End ToStringFacts.

(** * The cost breakdown *)
Module Breakdown.
Import JSFacts.

Lemma eq_of_Z_refl n : 0 <= n < 2 ^ 53 -> JS.eq (JS.of_Z n) (JS.of_Z n) = true.
Proof.
  intros Hn. destruct (Z.eq_dec n 0) as [->|Hn0]; [reflexivity|].
  rewrite of_Z_canon by lia. unfold JS.eq, SFeqb, SFcompare, JS.canon.
  rewrite Z.compare_refl, Pos.compare_cont_refl. reflexivity.
Qed.

Example example_breakdown :
  let b := calculateCostBreakdown example_form in
  JS.toString (prepaidTotal b) = "120"
  /\ JS.toString (reimbursementTotal b) = "370"
  /\ JS.toString (totalCost b) = "490".
Proof. vm_compute. auto. Qed.

(** C3, as stated, fails: with 0.1 paid ahead and 0.2 and 0.3 reimbursed,
    [prepaidTotal + reimbursementTotal] is 0.1 + (0.2 + 0.3) = 0.6 while
    [totalCost] is (0.1 + 0.2) + 0.3 = 0.6000000000000001. *)
Lemma totals_drift :
  ~ (forall data : FormData, totals_agree (calculateCostBreakdown data)).
Proof.
  intros H. specialize (H drift_form). vm_compute in H. discriminate.
Qed.

Example totals_drift_values :
  let b := calculateCostBreakdown drift_form in
  JS.toString (JS.add (prepaidTotal b) (reimbursementTotal b)) = "0.6"
  /\ JS.toString (totalCost b) = "0.6000000000000001".
Proof. vm_compute. auto. Qed.

Ltac whole_sums :=
  change JS.zero with (JS.of_Z 0);
  repeat (rewrite add_of_Z by lia).

(** C3, amended: for every form whose five amounts are non-negative whole
    numbers (up to 2^50), [prepaidTotal + reimbursementTotal == totalCost]
    holds exactly. *)
Theorem totals_agree_whole (data : FormData) :
  let b := calculateCostBreakdown data in
  whole_amount (registration b) -> whole_amount (hotel b) ->
  whole_amount (flight b) -> whole_amount (mileage b) ->
  whole_amount (meals b) ->
  totals_agree b.
Proof.
  cbn zeta. unfold totals_agree, calculateCostBreakdown.
  cbn [registration hotel flight mileage meals totalCost
       prepaidTotal reimbursementTotal].
  intros (r & Hr & ->) (h & Hh & ->) (f & Hf & ->) (mi & Hmi & ->)
         (me & Hme & ->).
  assert (H50 : 2 ^ 50 * 8 = 2 ^ 53) by reflexivity.
  rewrite !gt_of_Z_zero by lia.
  destruct (pay_ahead_registration data), (pay_ahead_hotel data),
    (pay_ahead_flight data),
    (0 <? r) eqn:Er, (0 <? h) eqn:Eh, (0 <? f) eqn:Ef,
    (0 <? mi) eqn:Emi, (0 <? me) eqn:Eme;
    cbn [push_if andb negb fst snd amount];
    rewrite ?Z.ltb_lt, ?Z.ltb_ge in *;
    whole_sums;
    match goal with
    | |- JS.eq (JS.of_Z ?a) (JS.of_Z ?b) = true =>
        replace a with b by lia; apply eq_of_Z_refl; lia
    end.
Qed.

Lemma totals_agree_whole_witness : totals_agree (calculateCostBreakdown example_form).
Proof.
  apply (totals_agree_whole example_form).
  - exists 120. split; [lia | reflexivity].
  - exists 300. split; [lia | reflexivity].
  - exists 0. split; [lia | reflexivity].
  - exists 70. split; [lia | reflexivity].
  - exists 0. split; [lia | reflexivity].
Defined.

(** C9: the submission path reads the hotel amount from [hotel_cost] or
    else [hotel_total], the requester notification of the decision path
    from [hotel_cost] alone; for the example form, with [hotel_total] set
    and [hotel_cost] absent, the approver is shown a total of 490 and the
    total computed for the requester is 190. *)
Theorem totals_diverge_across_paths :
  exists data : FormData,
    hotel_cost data = None /\ hotel_total data = Some "300"
    /\ JS.toString (formatEmailHtml_totalCost data) = "490"
    /\ JS.toString (formatRequesterEmailHtml_totalCost data) = "190"
    /\ JS.eq (formatEmailHtml_totalCost data)
             (formatRequesterEmailHtml_totalCost data) = false.
Proof. exists example_form. vm_compute. auto 6. Qed.

End Breakdown.

(** * Request ids and sequence keys *)
Module Ids.
Import JS JSFacts Digits ToStringFacts.

Lemma substring_0_0 s : String.substring 0 0 s = EmptyString.
Proof. destruct s; reflexivity. Qed.

Lemma digit_not_s c : is_digit c = true -> c <> "s"%char.
Proof. intros H ->. discriminate. Qed.

Lemma render_digits_head c r n :
  c <> "s"%char -> starts_plainly (render_digits (String c r) n).
Proof.
  intros Hc. unfold render_digits, starts_plainly. cbv zeta.
  destruct ((_ <=? n) && (n <=? 21)) eqn:E1.
  { cbn [String.append]. eexists _, _. split; [reflexivity|assumption]. }
  destruct ((0 <? n) && (n <=? 21)) eqn:E2.
  { apply andb_true_iff in E2 as [E2 _]. apply Z.ltb_lt in E2.
    destruct (Z.to_nat n) as [|k] eqn:Ek; [lia|].
    cbn [String.substring String.append].
    eexists _, _. split; [reflexivity|assumption]. }
  destruct ((-6 <? n) && (n <=? 0)) eqn:E3.
  { cbn [String.append]. eexists _, _. split; [reflexivity|discriminate]. }
  cbn [String.substring]. rewrite substring_0_0.
  destruct (_ =? 1); cbn [String.append];
    eexists _, _; (split; [reflexivity|assumption]).
Qed.

Lemma positive_toString_head m e : starts_plainly (positive_toString m e).
Proof.
  unfold positive_toString. destruct (safe_integer m e) as [v|].
  - destruct (decimal_head v) as (c & r & -> & Hc).
    exists c, r. split; [reflexivity | apply digit_not_s, Hc].
  - destruct (shortest_digits _ _ _ _ _) as [s0 p0].
    destruct (strip_zeros _ _ _) as [s p].
    destruct (decimal_head (Z.to_N s)) as (c & r & -> & Hc).
    apply render_digits_head, digit_not_s, Hc.
Qed.

Lemma toString_head x : starts_plainly (toString x).
Proof.
  destruct x as [s|s| |s m e]; cbn [toString].
  - eexists _, _; split; [reflexivity|discriminate].
  - destruct s; eexists _, _; (split; [reflexivity|discriminate]).
  - eexists _, _; split; [reflexivity|discriminate].
  - destruct s; cbn.
    + eexists _, _; split; [reflexivity|discriminate].
    + apply positive_toString_head.
Qed.

(** If moving ["sequence-"] from the front of a string to its back, with
    a dash in between, gives the same string, the tail is ["sequence"]. *)
Lemma rotation_tail (n : nat) : forall p t,
  (String.length p <= n)%nat ->
  p ++ String "-" t = "sequence-" ++ p -> t = "sequence".
Proof.
  induction n as [n IH] using lt_wf_ind. intros p t Hlen H.
  destruct p as [|c1 [|c2 [|c3 [|c4 [|c5 [|c6 [|c7 [|c8 [|c9 p']]]]]]]]];
    cbn [String.append] in H; try (injection H; intros; subst; (congruence || reflexivity)).
  injection H as -> -> -> -> -> -> -> -> -> H.
  apply (IH (String.length p')) with (p := p'); cbn in Hlen; [lia|lia|].
  exact H.
Qed.

(** A request id is never the sequence key of its own prefix. *)
Lemma id_not_sequence_key prefix x :
  prefix ++ "-" ++ toString x <> sequence_key prefix.
Proof.
  unfold sequence_key. intros H.
  apply (rotation_tail (String.length prefix)) in H; [|lia].
  destruct (toString_head x) as (c & r & E & Hc).
  rewrite E in H. injection H as -> _. congruence.
Qed.
End Ids.

(** * Allocation of request ids *)
Module Allocation.
Import JS JSFacts Digits ToStringFacts Ids.

Lemma next_sequence_stored existing c :
  stored_count existing c -> c + 1 < 2 ^ 53 ->
  next_sequence existing = of_Z (c + 1).
Proof.
  intros [Hc [[-> ->] | ->]] Hb; [reflexivity|].
  apply next_sequence_count; assumption.
Qed.

Lemma generateRequestId_stored email today (store : Store) c :
  stored_count (store !! sequence_key (id_prefix email today)) c ->
  c + 1 < 2 ^ 53 ->
  generateRequestId email today store
  = (id_prefix email today ++ "-" ++ decimal (Z.to_N (c + 1)),
     <[sequence_key (id_prefix email today) := Sequence (of_Z (c + 1))]> store).
Proof.
  intros Hs Hb. unfold generateRequestId.
  rewrite (next_sequence_stored _ c Hs Hb).
  rewrite toString_of_Z by (destruct Hs; lia). reflexivity.
Qed.

Lemma id_of_count_inj prefix c (j k : nat) :
  0 <= c ->
  prefix ++ "-" ++ decimal (Z.to_N (c + Z.of_nat j))
  = prefix ++ "-" ++ decimal (Z.to_N (c + Z.of_nat k)) -> j = k.
Proof.
  intros Hc H. apply (inj (String.append prefix)) in H.
  apply (inj (String.append "-")) in H. apply decimal_inj in H. lia.
Qed.



End Allocation.

(** * The decision handler *)
Module Deciding.

Lemma nonempty_string (s : string) : s <> EmptyString -> exists c r, s = String c r.
Proof. destruct s; [congruence | eauto]. Qed.

Lemma terminal_eqb d :
  terminal d ->
  (String.eqb d "accepted" || String.eqb d "sent_back"
   || String.eqb d "rejected") = true.
Proof. intros [-> | [-> | ->]]; reflexivity. Qed.

Lemma eqb_terminal d :
  (String.eqb d "accepted" || String.eqb d "sent_back"
   || String.eqb d "rejected") = true -> terminal d.
Proof.
  unfold terminal. rewrite !orb_true_iff, !String.eqb_eq. tauto.
Qed.

Lemma comments_checked d comments :
  terminal d -> (d <> "accepted" -> trim comments <> EmptyString) ->
  ((String.eqb d "sent_back" || String.eqb d "rejected")
   && negb (match trim comments with String _ _ => true | _ => false end))
  = false.
Proof.
  intros [-> | [-> | ->]] H; [reflexivity | |];
    (destruct (trim comments); [exfalso; apply H; congruence | reflexivity]).
Qed.

(** What the first half of the handler answers to a well-formed request. *)
Lemma decide_check_well_formed req id tok decision comments (store : Store) :
  well_formed req id tok decision comments ->
  decide_check req store =
  match store !! id with
  | None => inl request_not_found
  | Some (Sequence x) =>
      if is_json_number x then inl invalid_token
      else inl {| code := 500; body := Plain "Internal server error" |}
  | Some (Request r) =>
      if negb (String.eqb (token r) tok) then inl invalid_token
      else if negb (String.eqb (status r) "pending")
           then inl (already_processed (status r))
           else inr (id, decision, comments, r)
  end.
Proof.
  intros (Hm & Hi & Ht & Hd & Hc & Hid & Htok & Hdec & Hcom).
  unfold decide_check. rewrite Hm, Hi, Ht, Hd, Hc.
  rewrite String.eqb_refl. cbn [negb].
  destruct (nonempty_string id Hid) as (c1 & r1 & ->).
  destruct (nonempty_string tok Htok) as (c2 & r2 & ->).
  assert (Hne : decision <> EmptyString) by (destruct Hdec as [-> | [-> | ->]]; discriminate).
  destruct (nonempty_string decision Hne) as (c3 & r3 & ->).
  rewrite (terminal_eqb _ Hdec),
    (comments_checked _ _ Hdec (fun H => proj2 (Hcom H))).
  reflexivity.
Qed.

(** When the first half lets a request through, the request was
    well formed and the record it read is pending under that token. *)
Lemma decide_check_inr req (store : Store) id decision comments r :
  decide_check req store = inr (id, decision, comments, r) ->
  store !! id = Some (Request r) /\ status r = "pending"
  /\ terminal decision
  /\ form_token (parseFormData (decide_params req)) = Some (token r)
  /\ form_requestId (parseFormData (decide_params req)) = Some id.
Proof.
  unfold decide_check.
  destruct (negb _); [discriminate|].
  destruct (form_requestId _) as [[|c1 r1]|]; try discriminate.
  destruct (form_token _) as [[|c2 r2]|]; try discriminate.
  destruct (form_decision _) as [[|c3 r3]|]; try discriminate.
  destruct (negb _) eqn:Edec; [discriminate|].
  destruct (_ && _); [discriminate|].
  destruct (_ !! _) as [[x|r']|] eqn:El; try discriminate.
  - destruct (is_json_number x); discriminate.
  - destruct (negb (String.eqb (token r') _)) eqn:Et; [discriminate|].
    destruct (negb (String.eqb (status r') _)) eqn:Es; [discriminate|].
    intros [= <- <- <- <-].
    apply negb_false_iff in Edec, Et, Es.
    apply String.eqb_eq in Et, Es. apply eqb_terminal in Edec.
    rewrite <- Et. auto.
Qed.

(** The handler writes at most one key, and only over a pending
    record. *)
Lemma decide_handler_store env resend req (store : Store) :
  store_after (decide_handler env resend req store) = store
  \/ exists id decision comments r,
       decide_check req store = inr (id, decision, comments, r)
       /\ store_after (decide_handler env resend req store)
          = <[id := Request (decided id decision comments (decide_now req) r)]>
              store.
Proof.
  unfold decide_handler.
  destruct (decide_check req store) as [early | [[[id decision] comments] r]];
    [left; reflexivity|].
  right. exists id, decision, comments, r. split; [reflexivity|].
  unfold decide_commit.
  destruct (negb _); [reflexivity|]. destruct (_ && _); reflexivity.
Qed.

Lemma decide_commit_response env resend req id decision comments r
    (store : Store) :
  response (decide_commit env resend req id decision comments r store)
  = confirmation decision id.
Proof.
  unfold decide_commit.
  destruct (negb _); [reflexivity|]. destruct (_ && _); reflexivity.
Qed.

(** A record that is no longer pending survives every decision request
    unchanged. *)
Lemma decided_record_kept env resend req (store : Store) id r :
  store !! id = Some (Request r) -> status r <> "pending" ->
  store_after (decide_handler env resend req store) !! id = Some (Request r).
Proof.
  intros Hl Hs.
  destruct (decide_handler_store env resend req store)
    as [-> | (id' & d & c & r' & Hc & ->)]; [assumption|].
  apply decide_check_inr in Hc as (Hl' & Hp & _).
  destruct (decide (id' = id)) as [->|Hne].
  - rewrite Hl in Hl'. injection Hl' as <-. contradiction.
  - rewrite lookup_insert_ne by assumption. assumption.
Qed.

(** A request that does not go through to the write gets no 200. *)
Lemma decide_check_early req (store : Store) early :
  decide_check req store = inl early -> code early <> 200.
Proof.
  unfold decide_check.
  repeat match goal with
  | |- context [match ?x with _ => _ end] => destruct x
  end; intros [= <-]; discriminate.
Qed.

(** C1: on a pending record, the first well-formed decision request with
    the stored token sets the status to the decision, sets [decidedAt] and
    [comments], and gets the confirmation page; after it, no decision
    request whatsoever changes the record again, none gets a 200, and a
    well-formed one with the stored token, the identical retry included,
    gets the "already processed" answer. *)
Theorem decide_first_wins env resend req (store : Store) id decision remarks r :
  store !! id = Some (Request r) -> status r = "pending" ->
  well_formed req id (token r) decision remarks ->
  let first := decide_handler env resend req store in
  let r' := decided id decision remarks (decide_now req) r in
  response first = confirmation decision id
  /\ store_after first !! id = Some (Request r')
  /\ status r' = decision /\ decidedAt r' = Some (decide_now req)
  /\ comments r' = Some remarks
  /\ forall env' resend' req',
       let second := decide_handler env' resend' req' (store_after first) in
       store_after second !! id = Some (Request r')
       /\ (form_requestId (parseFormData (decide_params req')) = Some id ->
           store_after second = store_after first
           /\ code (response second) <> 200)
       /\ (forall decision' comments',
             well_formed req' id (token r) decision' comments' ->
             response second = already_processed decision).
Proof.
  intros Hl Hp Hwf. cbn zeta.
  assert (Hdec : decision <> "pending").
  { destruct Hwf as (_ & _ & _ & _ & _ & _ & _ & [-> | [-> | ->]] & _);
      discriminate. }
  assert (Hfirst :
    decide_check req store = inr (id, decision, remarks, r)).
  { rewrite (decide_check_well_formed _ _ _ _ _ _ Hwf), Hl, Hp.
    rewrite String.eqb_refl. reflexivity. }
  assert (Hstore : store_after (decide_handler env resend req store)
    = <[id := Request (decided id decision remarks (decide_now req) r)]> store).
  { destruct (decide_handler_store env resend req store)
      as [E | (? & ? & ? & ? & Hc & E)].
    - unfold decide_handler in *. rewrite Hfirst in *.
      unfold decide_commit in *.
      destruct (negb _); [|destruct (_ && _)]; reflexivity.
    - rewrite Hfirst in Hc. injection Hc as <- <- <- <-. exact E. }
  assert (Hresp : response (decide_handler env resend req store)
    = confirmation decision id).
  { unfold decide_handler. rewrite Hfirst. apply decide_commit_response. }
  assert (Hl' : store_after (decide_handler env resend req store) !! id
    = Some (Request (decided id decision remarks (decide_now req) r))).
  { rewrite Hstore. apply lookup_insert_eq. }
  set (first := decide_handler env resend req store) in *. clearbody first.
  repeat split; try assumption.
  - apply decided_record_kept; [exact Hl' | exact Hdec].
  - destruct (decide_handler_store env' resend' req' (store_after first))
      as [E | (id' & d & c & r2 & Hc & _)]; [exact E|].
    apply decide_check_inr in Hc as (Hl2 & Hp2 & _ & _ & Hid).
    assert (id' = id) as -> by congruence.
    assert (r2 = decided id decision remarks (decide_now req) r) as ->
      by congruence.
    contradiction.
  - unfold decide_handler.
    destruct (decide_check req' _)
      as [early | [[[id' d] c] r2]] eqn:Hc.
    + cbn. eapply decide_check_early, Hc.
    + apply decide_check_inr in Hc as (Hl2 & Hp2 & _ & _ & Hid).
      assert (id' = id) as -> by congruence.
      assert (r2 = decided id decision remarks (decide_now req) r) as ->
        by congruence.
      contradiction.
  - intros decision' comments' Hwf'. unfold decide_handler.
    rewrite (decide_check_well_formed _ _ _ _ _ _ Hwf'), Hl'.
    cbn [token status decided]. rewrite String.eqb_refl. cbn [negb].
    replace (String.eqb decision "pending") with false
      by (symmetry; apply String.eqb_neq; exact Hdec).
    reflexivity.
Qed.
End Deciding.

(** * Lifecycle, tokens and the submission handler *)
Module Lifecycle.
Import Ids Deciding.

Lemma well_formed_sample_accept :
  well_formed sample_accept "alice-20250315-1" sample_token "accepted" EmptyString.
Proof.
  unfold well_formed. repeat apply conj; try reflexivity; try discriminate.
  - left. reflexivity.
  - intros H. contradiction.
Qed.

Lemma well_formed_sample_wrong_token :
  well_formed sample_wrong_token "alice-20250315-1" "0000" "accepted" EmptyString.
Proof.
  unfold well_formed. repeat apply conj; try reflexivity; try discriminate.
  - left. reflexivity.
  - intros H. contradiction.
Qed.

Lemma sample_store_lookup :
  sample_store !! "alice-20250315-1" = Some (Request sample_record).
Proof. apply lookup_insert_eq. Qed.

Lemma store_ok_insert_sequence (store : Store) k x :
  store_ok store -> store_ok (<[k := Sequence x]> store).
Proof.
  intros H id r Hl. destruct (decide (k = id)) as [->|Hne].
  - rewrite lookup_insert_eq in Hl. discriminate.
  - rewrite lookup_insert_ne in Hl by assumption. eapply H, Hl.
Qed.

Lemma store_ok_insert_request (store : Store) k r :
  store_ok store -> lifecycle_ok r -> store_ok (<[k := Request r]> store).
Proof.
  intros H Hr id r' Hl. destruct (decide (k = id)) as [->|Hne].
  - rewrite lookup_insert_eq in Hl. injection Hl as <-. exact Hr.
  - rewrite lookup_insert_ne in Hl by assumption. eapply H, Hl.
Qed.

(** What the submission handler leaves in the store: nothing new, the new
    sequence number alone, or the sequence number and a pending record
    under the new id. *)
Lemma submit_handler_store env resend req (store : Store) :
  store_after (submit_handler env resend req store) = store
  \/ exists form address,
       submit_json req = Some form /\ email form = Some address
       /\ let prefix := id_prefix address (submit_today req) in
          let sequence := next_sequence (store !! sequence_key prefix) in
          let store1 := <[sequence_key prefix := Sequence sequence]> store in
          store_after (submit_handler env resend req store) = store1
          \/ exists r,
               store_after (submit_handler env resend req store)
               = <[prefix ++ "-" ++ JS.toString sequence := Request r]> store1
               /\ status r = "pending" /\ decidedAt r = None
               /\ token r = submit_token req /\ formData r = form.
Proof.
  unfold submit_handler.
  destruct (negb _); [left; reflexivity|].
  destruct (submit_user req) as [user|]; [|left; reflexivity].
  destruct (submit_json req) as [form|]; [|left; reflexivity].
  destruct (email form) as [address|] eqn:Ea; [|left; reflexivity].
  right. exists form, address. split; [reflexivity|]. split; [exact Ea|].
  unfold generateRequestId. cbn zeta.
  destruct (negb (truthy (TRAINING_APPROVER_EMAIL env))); [left; reflexivity|].
  destruct (negb (truthy (TRAINING_DISBURSER_EMAIL env))); [left; reflexivity|].
  right. eexists. split.
  { destruct (negb (truthy (RESEND_API_KEY env))); [reflexivity|].
    destruct (resend _); reflexivity. }
  cbn. repeat split; reflexivity.
Qed.

Lemma submit_handler_ok env resend req (store : Store) :
  store_ok store -> store_ok (store_after (submit_handler env resend req store)).
Proof.
  intros H.
  destruct (submit_handler_store env resend req store)
    as [-> | (fd & a & _ & _ & [-> | (r & -> & Hs & _)])].
  - exact H.
  - apply store_ok_insert_sequence, H.
  - apply store_ok_insert_request; [apply store_ok_insert_sequence, H|].
    intros Hne. congruence.
Qed.

Lemma decide_handler_ok env resend req (store : Store) :
  store_ok store -> store_ok (store_after (decide_handler env resend req store)).
Proof.
  intros H.
  destruct (decide_handler_store env resend req store)
    as [-> | (id & d & c & r & Hc & ->)]; [exact H|].
  apply decide_check_inr in Hc as (_ & _ & Ht & _).
  apply store_ok_insert_request; [exact H|].
  intros _. cbn. split; [eauto | exact Ht].
Qed.

Lemma run_ops_ok ops : forall store : Store,
  store_ok store -> store_ok (run_ops ops store).
Proof.
  induction ops as [|op ops IH]; intros store H; [exact H|].
  apply IH. destruct op; [apply submit_handler_ok | apply decide_handler_ok];
    exact H.
Qed.

(** C6: in every store reached from the empty one by submissions and
    decisions, a record that is not pending has its [decidedAt] set and a
    terminal status; and a decision request leaves every record that is
    not pending as it is, so none goes back to pending. *)
Theorem lifecycle_invariant (ops : list Op) :
  let store := run_ops ops ∅ in
  (forall id r, store !! id = Some (Request r) ->
     status r <> "pending" ->
     is_Some (decidedAt r) /\ terminal (status r))
  /\ (forall env resend req id r,
        store !! id = Some (Request r) -> status r <> "pending" ->
        store_after (decide_handler env resend req store) !! id
        = Some (Request r)).
Proof.
  cbn zeta. split.
  - intros id r Hl. eapply (run_ops_ok ops ∅); [|exact Hl].
    intros k r' Hk. rewrite lookup_empty in Hk. discriminate.
  - intros env resend req id r. apply decided_record_kept.
Qed.

(** C7, as stated, fails: with a token that matches no record, the answer
    for the id of a stored request is 403 "Invalid token", and for an id
    that is not in the store 404 "Request not found". *)
Lemma unknown_id_is_told_apart :
  ~ (forall env resend req (s1 s2 : Store),
       no_token_matches req s1 -> no_token_matches req s2 ->
       response (decide_handler env resend req s1)
       = response (decide_handler env resend req s2)).
Proof.
  intros H.
  specialize (H sample_env delivering sample_wrong_token
                {["alice-20250315-1" := Request sample_record]} ∅).
  assert (H1 : no_token_matches sample_wrong_token
                 {["alice-20250315-1" := Request sample_record]}).
  { intros k r Hl. apply lookup_singleton_Some in Hl as [_ Hr].
    injection Hr as <-. discriminate. }
  assert (H2 : no_token_matches sample_wrong_token ∅).
  { intros k r Hl. rewrite lookup_empty in Hl. discriminate. }
  specialize (H H1 H2).
  unfold decide_handler in H.
  rewrite !(decide_check_well_formed _ _ _ _ _ _ well_formed_sample_wrong_token)
    in H.
  rewrite lookup_singleton_eq, lookup_empty in H. discriminate.
Qed.

(** C7, amended: a well-formed decision request whose token is not that
    of a request stored under its id gets 404 "Request not found" when
    nothing is stored under the id; 403 "Invalid token" when a request is
    stored under it, whatever the status and the other fields of that
    request, and also when the id is a sequence key that holds a number;
    and 500 "Internal server error" when the id is a sequence key that
    holds NaN or an infinity.  In every case the store is left as it was
    and no message is sent. *)
Theorem wrong_token_answers env resend req (store : Store)
    id tok decision remarks :
  well_formed req id tok decision remarks ->
  (forall r, store !! id = Some (Request r) -> token r <> tok) ->
  let out := decide_handler env resend req store in
  store_after out = store /\ outbox out = []
  /\ response out
     = match store !! id with
       | None => request_not_found
       | Some (Request _) => invalid_token
       | Some (Sequence x) =>
           if is_json_number x then invalid_token
           else internal_server_error
       end.
Proof.
  intros Hwf Htok. cbn zeta. unfold decide_handler.
  rewrite (decide_check_well_formed _ _ _ _ _ _ Hwf).
  destruct (store !! id) as [[x|r]|] eqn:Hl; [| |auto].
  - destruct (is_json_number x); auto.
  - replace (String.eqb (token r) tok) with false
      by (symmetry; apply String.eqb_neq; apply Htok; reflexivity).
    auto.
Qed.

Lemma well_formed_sample_sequence_key :
  well_formed sample_sequence_key "sequence-alice-20250315" "0000" "accepted"
              EmptyString.
Proof.
  unfold well_formed. repeat apply conj; try reflexivity; try discriminate.
  - left. reflexivity.
  - intros H. contradiction.
Qed.

Lemma wrong_token_answers_witness :
  response (decide_handler sample_env delivering sample_wrong_token ∅)
  = request_not_found
  /\ response (decide_handler sample_env delivering sample_wrong_token
                 sample_store)
     = invalid_token
  /\ response (decide_handler sample_env delivering sample_sequence_key
                 sample_store)
     = invalid_token.
Proof.
  split; [|split].
  - destruct (wrong_token_answers sample_env delivering sample_wrong_token ∅
                _ _ _ _ well_formed_sample_wrong_token) as (_ & _ & H).
    + intros r Hl. rewrite lookup_empty in Hl. discriminate.
    + rewrite H, lookup_empty. reflexivity.
  - destruct (wrong_token_answers sample_env delivering sample_wrong_token
                sample_store _ _ _ _ well_formed_sample_wrong_token)
      as (_ & _ & H).
    + intros r Hl. rewrite sample_store_lookup in Hl. injection Hl as <-.
      discriminate.
    + rewrite H, sample_store_lookup. reflexivity.
  - destruct (wrong_token_answers sample_env delivering sample_sequence_key
                sample_store _ _ _ _ well_formed_sample_sequence_key)
      as (_ & _ & H).
    + intros r Hl. vm_compute in Hl. discriminate.
    + rewrite H. vm_compute. reflexivity.
Defined.

Lemma decide_first_wins_witness :
  response (decide_handler sample_env delivering sample_accept sample_store)
  = confirmation "accepted" "alice-20250315-1"
  /\ response
       (decide_handler sample_env delivering sample_accept
          (store_after
             (decide_handler sample_env delivering sample_accept sample_store)))
     = already_processed "accepted".
Proof.
  destruct (decide_first_wins sample_env delivering sample_accept sample_store
              "alice-20250315-1" "accepted" EmptyString sample_record
              sample_store_lookup eq_refl well_formed_sample_accept)
    as (Hfirst & _ & _ & _ & _ & Hlater).
  split; [exact Hfirst|].
  destruct (Hlater sample_env delivering sample_accept) as (_ & _ & Hretry).
  apply (Hretry "accepted" EmptyString). exact well_formed_sample_accept.
Defined.

Lemma lifecycle_invariant_witness :
  is_Some (decidedAt sample_accepted) /\ terminal (status sample_accepted).
Proof.
  apply (proj1 (lifecycle_invariant
           [Submit sample_env delivering sample_submission;
            Decide sample_env delivering sample_accept])
           "alice-20250315-1" sample_accepted).
  - vm_compute. reflexivity.
  - discriminate.
Defined.
End Lifecycle.

(** * The submission handler *)
Module Submitting.
Import JSFacts ToStringFacts Ids Allocation.

(** C8: the submission handler fails closed.  When the notifier is not
    configured, or the message handed to it comes back with an error, the
    response is an error payload with a status of 400 or more; and a
    response of 200 means that exactly one message was handed to the
    notifier, addressed to the configured approver, and was accepted. *)
Theorem submit_fails_closed env resend req (store : Store) :
  let out := submit_handler env resend req store in
  (truthy (RESEND_API_KEY env) = false
   \/ (exists mail details,
         mail ∈ outbox out /\ resend mail = SendError details) ->
   400 <= code (response out)
   /\ exists error details, body (response out) = Json_error error details)
  /\ (code (response out) = 200 ->
      exists mail emailId,
        outbox out = [mail] /\ resend mail = Sent emailId
        /\ to mail = TRAINING_APPROVER_EMAIL env /\ truthy (to mail) = true
        /\ truthy (RESEND_API_KEY env) = true).
Proof.
  cbn zeta. unfold submit_handler.
  destruct (negb (String.eqb _ _)).
  { split; [intros _; split; [cbn; lia | eauto] | discriminate]. }
  destruct (submit_user req) as [user|].
  2:{ split; [intros _; split; [cbn; lia | eauto] | discriminate]. }
  destruct (submit_json req) as [form|].
  2:{ split; [intros _; split; [cbn; lia | cbn; eauto] | discriminate]. }
  destruct (email form) as [address|].
  2:{ split; [intros _; split; [cbn; lia | cbn; eauto] | discriminate]. }
  destruct (generateRequestId _ _ _) as [id store1].
  destruct (truthy (TRAINING_APPROVER_EMAIL env)) eqn:Ea; cbn [negb].
  2:{ split; [intros _; split; [cbn; lia | eauto] | discriminate]. }
  destruct (truthy (TRAINING_DISBURSER_EMAIL env)); cbn [negb].
  2:{ split; [intros _; split; [cbn; lia | eauto] | discriminate]. }
  destruct (truthy (RESEND_API_KEY env)) eqn:Ek; cbn [negb].
  2:{ split; [intros _; split; [cbn; lia | cbn; eauto] | discriminate]. }
  destruct (resend _) as [emailId | details] eqn:Er;
    cbn [response store_after outbox code body].
  - split.
    + intros [? | (mail & d & Hin & Hm)]; [discriminate|].
      apply list_elem_of_singleton in Hin. subst mail. congruence.
    + intros _. eexists _, emailId. repeat split; try reflexivity; assumption.
  - split; [intros _; split; [cbn; lia | cbn; eauto] | discriminate].
Qed.

Lemma submit_fails_closed_witness :
  400 <= code (response (submit_handler sample_env failing sample_submission ∅))
  /\ exists error details,
       body (response (submit_handler sample_env failing sample_submission ∅))
       = Json_error error details.
Proof.
  apply (submit_fails_closed sample_env failing sample_submission ∅).
  right. eexists _, _. split; [|reflexivity].
  vm_compute. apply list_elem_of_here.
Defined.

(** What the handler leaves in the store does not depend on what the
    notifier answers. *)
Lemma submit_store_regardless env resend resend' req (store : Store) :
  store_after (submit_handler env resend' req store)
  = store_after (submit_handler env resend req store).
Proof.
  unfold submit_handler.
  destruct (negb (String.eqb _ _)); [reflexivity|].
  destruct (submit_user req) as [user|]; [|reflexivity].
  destruct (submit_json req) as [form|]; [|reflexivity].
  destruct (email form) as [address|]; [|reflexivity].
  destruct (generateRequestId _ _ _) as [id store1].
  destruct (negb (truthy (TRAINING_APPROVER_EMAIL env))); [reflexivity|].
  destruct (negb (truthy (TRAINING_DISBURSER_EMAIL env))); [reflexivity|].
  destruct (negb (truthy (RESEND_API_KEY env))); [reflexivity|].
  destruct (resend _), (resend' _); reflexivity.
Qed.

(** C10: when the response is one of the two notifier failures ("Email
    service not configured" or "Failed to send notification email"), the
    store already holds the new sequence number under the sequence key and,
    under the new id, a pending record with the token of the request;
    neither write is undone, and the store is the same as it would be had
    the notifier answered otherwise.  The sequence number is the stored
    count plus one. *)
Theorem submit_persists_before_notifying env resend req (store : Store) :
  let out := submit_handler env resend req store in
  response out = email_service_not_configured
  \/ (exists details, response out = failed_to_send details) ->
  (exists form address,
    submit_json req = Some form /\ email form = Some address
    /\ let prefix := id_prefix address (submit_today req) in
       let sequence := next_sequence (store !! sequence_key prefix) in
       let id := prefix ++ "-" ++ JS.toString sequence in
       store_after out !! sequence_key prefix = Some (Sequence sequence)
       /\ (exists r,
             store_after out !! id = Some (Request r)
             /\ status r = "pending" /\ token r = submit_token req
             /\ formData r = form /\ decidedAt r = None)
       /\ (forall c, stored_count (store !! sequence_key prefix) c ->
             c + 1 < 2 ^ 53 -> sequence = JS.of_Z (c + 1)))
  /\ (forall resend',
        store_after (submit_handler env resend' req store) = store_after out).
Proof.
  cbn zeta. intros Hresp. split; [|intros resend'; apply submit_store_regardless].
  assert (Hlate : exists form address,
    submit_json req = Some form /\ email form = Some address
    /\ exists r,
         store_after (submit_handler env resend req store)
         = <[id_prefix address (submit_today req) ++ "-"
               ++ JS.toString (next_sequence
                    (store !! sequence_key (id_prefix address (submit_today req))))
             := Request r]>
             (<[sequence_key (id_prefix address (submit_today req))
                := Sequence (next_sequence
                    (store !! sequence_key (id_prefix address (submit_today req))))]>
                store)
         /\ status r = "pending" /\ token r = submit_token req
         /\ formData r = form /\ decidedAt r = None).
  { revert Hresp. unfold submit_handler.
    destruct (negb (String.eqb _ _)).
    { intros [H | [d H]]; discriminate. }
    destruct (submit_user req) as [user|].
    2:{ intros [H | [d H]]; discriminate. }
    destruct (submit_json req) as [form|].
    2:{ intros [H | [d H]]; discriminate. }
    destruct (email form) as [address|] eqn:Ea.
    2:{ intros [H | [d H]]; discriminate. }
    unfold generateRequestId. cbn zeta.
    destruct (negb (truthy (TRAINING_APPROVER_EMAIL env))).
    { intros [H | [d H]]; discriminate. }
    destruct (negb (truthy (TRAINING_DISBURSER_EMAIL env))).
    { intros [H | [d H]]; discriminate. }
    intros _. exists form, address. split; [reflexivity|]. split; [exact Ea|].
    eexists. split.
    { destruct (negb (truthy (RESEND_API_KEY env))); [reflexivity|].
      destruct (resend _); reflexivity. }
    cbn. repeat split; reflexivity. }
  destruct Hlate as (form & address & Hj & He & r & -> & Hs & Ht & Hf & Hd).
  exists form, address. split; [exact Hj|]. split; [exact He|]. cbn zeta.
  split; [|split].
  - rewrite lookup_insert_ne by apply id_not_sequence_key.
    apply lookup_insert_eq.
  - exists r. split; [apply lookup_insert_eq | auto].
  - intros c Hc Hb. apply next_sequence_stored; assumption.
Qed.

Lemma submit_persists_before_notifying_witness :
  exists r,
    store_after (submit_handler sample_env failing sample_submission ∅)
      !! "alice-20250315-1" = Some (Request r)
    /\ status r = "pending" /\ token r = sample_token.
Proof.
  destruct (submit_persists_before_notifying sample_env failing
              sample_submission ∅)
    as ((form & address & Hj & He & _ & (r & Hl & Hs & Ht & _) & _) & _).
  - right. eexists. reflexivity.
  - injection Hj as <-. injection He as <-.
    exists r. split; [exact Hl|]. split; [exact Hs | exact Ht].
Defined.
End Submitting.

(** * Overlapping invocations *)
Module Overlap.
Import JSFacts ToStringFacts Ids Allocation Deciding Lifecycle.

Lemma complete_cases schedule :
  complete schedule ->
  schedule = [0; 0; 1; 1]%nat \/ schedule = [0; 1; 0; 1]%nat
  \/ schedule = [0; 1; 1; 0]%nat \/ schedule = [1; 0; 0; 1]%nat
  \/ schedule = [1; 0; 1; 0]%nat \/ schedule = [1; 1; 0; 0]%nat.
Proof.
  intros (Hlen & H0 & H1).
  destruct schedule as [|[|[|a]] [|[|[|b]] [|[|[|c]] [|[|[|d]] [|? ?]]]]];
    cbn in Hlen, H0, H1; try discriminate; tauto.
Qed.

Section Run.
Context {Proc : Type} (step : Proc -> Store -> Proc * Store).

Lemma run_first rest (p q : Proc) (store : Store) :
  run step (0%nat :: rest) [p; q] store
  = run step rest [(step p store).1; q] (step p store).2.
Proof. cbn. destruct (step p store). reflexivity. Qed.

Lemma run_second rest (p q : Proc) (store : Store) :
  run step (1%nat :: rest) [p; q] store
  = run step rest [p; (step q store).1] (step q store).2.
Proof. cbn. destruct (step q store). reflexivity. Qed.

Lemma run_end (procs : list Proc) (store : Store) :
  run step [] procs store = (procs, store).
Proof. reflexivity. Qed.
End Run.

Lemma alloc_step_start email today (store : Store) :
  alloc_step (allocation email today) store
  = ({| alloc_email := email; alloc_today := today;
        alloc_pc := AllocRead
          (next_sequence (store !! sequence_key (id_prefix email today))) |},
     store).
Proof. reflexivity. Qed.

Lemma alloc_step_read email today x (store : Store) :
  alloc_step {| alloc_email := email; alloc_today := today;
                alloc_pc := AllocRead x |} store
  = ({| alloc_email := email; alloc_today := today;
        alloc_pc := AllocDone (id_prefix email today ++ "-" ++ JS.toString x) |},
     <[sequence_key (id_prefix email today) := Sequence x]> store).
Proof. reflexivity. Qed.

(** C5, as stated, fails: when both allocations read the sequence key
    before either writes it, both return the same id. *)
Lemma overlapping_allocations_collide :
  ~ (forall schedule email today (store : Store) id1 id2,
       allocated <$>
         (run alloc_step schedule
            [allocation email today; allocation email today] store).1
       = [Some id1; Some id2] ->
       id1 <> id2).
Proof.
  intros H.
  apply (H [0; 1; 0; 1]%nat "alice@x.org" "2025-03-15T09:00:00.000Z" ∅
           "alice-20250315-1" "alice-20250315-1"); reflexivity.
Qed.

Ltac run_allocations :=
  repeat first
    [ rewrite run_first | rewrite run_second | rewrite run_end
    | rewrite alloc_step_start | rewrite alloc_step_read
    | progress cbn [fst snd] ].

(** C5, amended: two allocations for one requester and date that run one
    after the other return the two distinct ids numbered [c + 1] and
    [c + 2]; in every schedule in which they overlap, both read the same
    count and both return the id numbered [c + 1]. *)
Theorem overlapping_allocations email1 today1 email2 today2 prefix
    (store : Store) c schedule :
  id_prefix email1 today1 = prefix -> id_prefix email2 today2 = prefix ->
  stored_count (store !! sequence_key prefix) c -> c + 2 < 2 ^ 53 ->
  complete schedule ->
  let ids :=
    allocated <$>
      (run alloc_step schedule
         [allocation email1 today1; allocation email2 today2] store).1 in
  let id k := prefix ++ "-" ++ JS.decimal (Z.to_N (c + k)) in
  (schedule = [0; 0; 1; 1]%nat -> ids = [Some (id 1); Some (id 2)])
  /\ (schedule = [1; 1; 0; 0]%nat -> ids = [Some (id 2); Some (id 1)])
  /\ (~ serial schedule -> ids = [Some (id 1); Some (id 1)])
  /\ id 1 <> id 2.
Proof.
  intros Hp1 Hp2 Hs Hb Hc. cbn zeta.
  assert (Hc0 : 0 <= c) by (destruct Hs; lia).
  assert (Hn1 : next_sequence (store !! sequence_key prefix) = JS.of_Z (c + 1)).
  { apply next_sequence_stored; [assumption|lia]. }
  assert (Hn2 : next_sequence (Some (Sequence (JS.of_Z (c + 1))))
                = JS.of_Z (c + 2)).
  { replace (c + 2) with (c + 1 + 1) by lia.
    apply next_sequence_count; lia. }
  assert (Ht1 : JS.toString (JS.of_Z (c + 1)) = JS.decimal (Z.to_N (c + 1))).
  { apply toString_of_Z. lia. }
  assert (Ht2 : JS.toString (JS.of_Z (c + 2)) = JS.decimal (Z.to_N (c + 2))).
  { apply toString_of_Z. lia. }
  repeat split.
  - intros ->. run_allocations. rewrite Hp1, Hp2, Hn1.
    rewrite lookup_insert_eq, Hn2, Ht1, Ht2. reflexivity.
  - intros ->. run_allocations. rewrite Hp1, Hp2, Hn1.
    rewrite lookup_insert_eq, Hn2, Ht1, Ht2. reflexivity.
  - intros Hns.
    destruct (complete_cases schedule Hc) as [-> | [-> | [-> | [-> | [-> | ->]]]]];
      try (exfalso; apply Hns; unfold serial; tauto);
      run_allocations; rewrite Hp1, Hp2, Hn1, Ht1; reflexivity.
  - intros H. apply (id_of_count_inj prefix c 1 2) in H; [discriminate|lia].
Qed.

Lemma overlapping_allocations_witness :
  allocated <$>
    (run alloc_step [0; 1; 1; 0]%nat
       [allocation "alice@x.org" "2025-03-15T09:00:00.000Z";
        allocation "alice@x.org" "2025-03-15T09:00:00.020Z"] ∅).1
  = [Some "alice-20250315-1"; Some "alice-20250315-1"].
Proof.
  assert (Hs : stored_count ((∅ : Store) !! sequence_key "alice-20250315") 0).
  { split; [lia|]. left. split; [apply lookup_empty | reflexivity]. }
  destruct (overlapping_allocations
              "alice@x.org" "2025-03-15T09:00:00.000Z"
              "alice@x.org" "2025-03-15T09:00:00.020Z"
              "alice-20250315" ∅ 0 [0; 1; 1; 0]%nat
              eq_refl eq_refl Hs eq_refl)
    as (_ & _ & H & _).
  - repeat split.
  - apply H. intros [E | E]; discriminate.
Defined.
End Overlap.

(** * Overlapping decisions *)
Module OverlapDecide.
Import Deciding Lifecycle Overlap.

Lemma decide_commit_store env resend req id d c r (store : Store) :
  store_after (decide_commit env resend req id d c r store)
  = <[id := Request (decided id d c (decide_now req) r)]> store.
Proof.
  unfold decide_commit.
  destruct (negb _); [reflexivity|]. destruct (_ && _); reflexivity.
Qed.

Lemma decide_step_start env resend req (store : Store) :
  decide_step (decision env resend req) store
  = ({| proc_env := env; proc_resend := resend; proc_request := req;
        proc_pc :=
          match decide_check req store with
          | inl early => DecideDone early
          | inr (id, d, c, r) => DecideChecked id d c r
          end |},
     store).
Proof.
  unfold decide_step, decision. cbn.
  destruct (decide_check req store) as [early | [[[id d] c] r]]; reflexivity.
Qed.

Lemma decide_step_checked env resend req id d c r (store : Store) :
  decide_step {| proc_env := env; proc_resend := resend; proc_request := req;
                 proc_pc := DecideChecked id d c r |} store
  = ({| proc_env := env; proc_resend := resend; proc_request := req;
        proc_pc := DecideDone (confirmation d id) |},
     <[id := Request (decided id d c (decide_now req) r)]> store).
Proof.
  unfold decide_step. cbn [proc_pc proc_env proc_resend proc_request].
  rewrite decide_commit_response, decide_commit_store. reflexivity.
Qed.

Lemma decide_check_pending req id d c r (store : Store) :
  well_formed req id (token r) d c ->
  store !! id = Some (Request r) -> status r = "pending" ->
  decide_check req store = inr (id, d, c, r).
Proof.
  intros Hwf Hl Hp.
  rewrite (decide_check_well_formed _ _ _ _ _ _ Hwf), Hl, Hp.
  rewrite String.eqb_refl. reflexivity.
Qed.

Lemma decide_check_decided req id d c r d' c' now (store : Store) :
  well_formed req id (token r) d c -> terminal d' ->
  store !! id = Some (Request (decided id d' c' now r)) ->
  decide_check req store = inl (already_processed d').
Proof.
  intros Hwf Ht Hl.
  rewrite (decide_check_well_formed _ _ _ _ _ _ Hwf), Hl.
  cbn [token status decided]. rewrite String.eqb_refl. cbn [negb].
  destruct Ht as [-> | [-> | ->]]; reflexivity.
Qed.

(** C2, as stated, fails: of two requests for one id, when both read the
    pending record before either writes, both get the confirmation
    page. *)
Lemma overlapping_decisions_both_commit :
  ~ (forall schedule env resend req1 req2 (store : Store) id resp1 resp2,
       form_requestId (parseFormData (decide_params req1)) = Some id ->
       form_requestId (parseFormData (decide_params req2)) = Some id ->
       complete schedule ->
       responded <$>
         (run decide_step schedule
            [decision env resend req1; decision env resend req2] store).1
       = [Some resp1; Some resp2] ->
       ~ (code resp1 = 200 /\ code resp2 = 200)).
Proof.
  intros H.
  apply (H [0; 1; 0; 1]%nat sample_env delivering sample_accept sample_reject
           sample_store "alice-20250315-1"
           (confirmation "accepted" "alice-20250315-1")
           (confirmation "rejected" "alice-20250315-1")).
  - reflexivity.
  - reflexivity.
  - repeat split.
  - vm_compute. reflexivity.
  - split; reflexivity.
Qed.

Ltac run_decisions :=
  repeat first
    [ rewrite run_first | rewrite run_second | rewrite run_end
    | rewrite decide_step_start | rewrite decide_step_checked
    | progress cbn [fst snd] ].

(** C2, amended: of two well-formed decision requests with the stored
    token on one pending record, run one after the other, the first
    commits and the second gets the "already processed" answer; in every
    schedule in which they overlap, both read the record as pending, both
    write and both get the confirmation page, and the record keeps the
    decision, [decidedAt] and comments of the one that wrote last. *)
Theorem overlapping_decisions env1 resend1 req1 env2 resend2 req2
    (store : Store) id r d1 c1 d2 c2 schedule :
  store !! id = Some (Request r) -> status r = "pending" ->
  well_formed req1 id (token r) d1 c1 ->
  well_formed req2 id (token r) d2 c2 ->
  complete schedule ->
  let final :=
    run decide_step schedule
      [decision env1 resend1 req1; decision env2 resend2 req2] store in
  let r1 := decided id d1 c1 (decide_now req1) r in
  let r2 := decided id d2 c2 (decide_now req2) r in
  (schedule = [0; 0; 1; 1]%nat ->
     responded <$> final.1
     = [Some (confirmation d1 id); Some (already_processed d1)]
     /\ final.2 !! id = Some (Request r1))
  /\ (schedule = [1; 1; 0; 0]%nat ->
     responded <$> final.1
     = [Some (already_processed d2); Some (confirmation d2 id)]
     /\ final.2 !! id = Some (Request r2))
  /\ (~ serial schedule ->
     responded <$> final.1
     = [Some (confirmation d1 id); Some (confirmation d2 id)]
     /\ final.2 !! id
        = Some (Request (if Nat.eqb (List.last schedule 0%nat) 0 then r1 else r2))).
Proof.
  intros Hl Hp Hwf1 Hwf2 Hc. cbn zeta.
  assert (Ht1 : terminal d1) by apply Hwf1.
  assert (Ht2 : terminal d2) by apply Hwf2.
  pose proof (decide_check_pending req1 id d1 c1 r store Hwf1 Hl Hp) as Hc1.
  pose proof (decide_check_pending req2 id d2 c2 r store Hwf2 Hl Hp) as Hc2.
  split; [|split].
  - intros ->. run_decisions. rewrite Hc1. run_decisions.
    rewrite (decide_check_decided req2 id d2 c2 r d1 c1 (decide_now req1))
      by (assumption || apply lookup_insert_eq).
    run_decisions. split; [reflexivity | apply lookup_insert_eq].
  - intros ->. run_decisions. rewrite Hc2. run_decisions.
    rewrite (decide_check_decided req1 id d1 c1 r d2 c2 (decide_now req2))
      by (assumption || apply lookup_insert_eq).
    run_decisions. split; [reflexivity | apply lookup_insert_eq].
  - intros Hns.
    destruct (complete_cases schedule Hc) as [-> | [-> | [-> | [-> | [-> | ->]]]]];
      try (exfalso; apply Hns; unfold serial; tauto);
      run_decisions; rewrite ?Hc1, ?Hc2; run_decisions;
      rewrite ?Hc1, ?Hc2; run_decisions;
      (split; [reflexivity | apply lookup_insert_eq]).
Qed.

Lemma well_formed_sample_reject :
  well_formed sample_reject "alice-20250315-1" sample_token "rejected"
              "Over budget".
Proof.
  unfold well_formed. repeat apply conj; try reflexivity; try discriminate.
  - right. right. reflexivity.
  - intros _. split; [reflexivity | discriminate].
Qed.

Lemma overlapping_decisions_witness :
  responded <$>
    (run decide_step [0; 1; 0; 1]%nat
       [decision sample_env delivering sample_accept;
        decision sample_env failing sample_reject] sample_store).1
  = [Some (confirmation "accepted" "alice-20250315-1");
     Some (confirmation "rejected" "alice-20250315-1")].
Proof.
  destruct (overlapping_decisions
              sample_env delivering sample_accept
              sample_env failing sample_reject
              sample_store "alice-20250315-1" sample_record
              "accepted" EmptyString "rejected" "Over budget" [0; 1; 0; 1]%nat
              sample_store_lookup eq_refl
              well_formed_sample_accept well_formed_sample_reject)
    as (_ & _ & H).
  - repeat split.
  - apply H. intros [E | E]; discriminate.
Defined.
End OverlapDecide.

(** * More on the cost breakdown *)
Module BreakdownMore.
Import JSFacts Breakdown.

Lemma push_if_items c it acc :
  (push_if c it acc).1 = (acc.1 ++ (if c then [it] else []))%list.
Proof. destruct c; cbn; [reflexivity | rewrite app_nil_r; reflexivity]. Qed.

Lemma push_if_total c it acc :
  (push_if c it acc).2 = if c then JS.add acc.2 (amount it) else acc.2.
Proof. destruct c; reflexivity. Qed.

Lemma or_zero_cases x :
  JS.or x JS.zero = JS.zero \/
  (JS.or x JS.zero = x /\ JS.truthy x = true).
Proof. unfold JS.or. destruct (JS.truthy x) eqn:E; auto. Qed.

Lemma plain_or_zero x : plain_amount (JS.or x JS.zero).
Proof.
  destruct (or_zero_cases x) as [-> | [-> H]]; [left | right]; auto.
Qed.

Lemma plain_or_or_zero x y : plain_amount (JS.or (JS.or x y) JS.zero).
Proof. apply plain_or_zero. Qed.

Lemma plain_if (c : bool) x : plain_amount x -> plain_amount (if c then x else JS.zero).
Proof. destruct c; [auto | left; reflexivity]. Qed.

Lemma push_if_Forall (P : Item -> Prop) c it acc :
  Forall P acc.1 -> (c = true -> P it) -> Forall P (push_if c it acc).1.
Proof.
  intros Ha Hc. rewrite push_if_items. apply Forall_app. split; [exact Ha|].
  destruct c; [constructor; [auto | constructor] | constructor].
Qed.

Lemma push_if_elem x c it acc :
  x ∈ (push_if c it acc).1 <-> x ∈ acc.1 \/ (c = true /\ x = it).
Proof.
  rewrite push_if_items, elem_of_app. destruct c.
  - rewrite list_elem_of_singleton. intuition.
  - rewrite elem_of_nil. intuition discriminate.
Qed.

Lemma push_if_sum c it acc :
  acc.2 = sum_amounts acc.1 ->
  (push_if c it acc).2 = sum_amounts (push_if c it acc).1.
Proof.
  intros H. rewrite push_if_items, push_if_total. unfold sum_amounts in *.
  rewrite fold_left_app, <- H. destruct c; reflexivity.
Qed.

(** Every amount of the breakdown is +0 or a number that is neither zero
    nor NaN (a blank or non-numeric field counts as +0), and every item of
    either list has an amount greater than zero. *)
Theorem breakdown_amounts (data : FormData) :
  let b := calculateCostBreakdown data in
  plain_amount (registration b) /\ plain_amount (hotel b)
  /\ plain_amount (flight b) /\ plain_amount (mileage b)
  /\ plain_amount (meals b)
  /\ Forall (fun it => JS.gt (amount it) JS.zero = true)
       (prepaidItems b ++ reimbursementItems b).
Proof.
  cbn zeta. unfold calculateCostBreakdown.
  cbn [registration hotel flight mileage meals prepaidItems reimbursementItems].
  repeat split; try apply plain_or_zero; try (apply plain_if, plain_or_zero).
  apply Forall_app. split;
    repeat (apply push_if_Forall;
            [| cbn [amount]; rewrite ?andb_true_iff; tauto]);
    constructor.
Qed.

(** Mileage and meals are never paid ahead: the prepaid items are only
    registration, hotel and airfare; and no category is listed both as
    prepaid and as reimbursed. *)
Theorem prepaid_and_reimbursed_apart (data : FormData) :
  let b := calculateCostBreakdown data in
  Forall (fun it => label it = "Registration" \/ label it = "Hotel"
                    \/ label it = "Airfare") (prepaidItems b)
  /\ forall i j, i ∈ prepaidItems b -> j ∈ reimbursementItems b ->
       label i <> label j.
Proof.
  cbn zeta. unfold calculateCostBreakdown.
  cbn [prepaidItems reimbursementItems]. split.
  - repeat (apply push_if_Forall; [| cbn [label]; tauto]). constructor.
  - intros i j Hi Hj.
    repeat rewrite push_if_elem in Hi. repeat rewrite push_if_elem in Hj.
    cbn [fst] in Hi, Hj.
    rewrite !elem_of_nil, !andb_true_iff, ?negb_true_iff in Hi.
    rewrite !elem_of_nil, !andb_true_iff, ?negb_true_iff in Hj.
    destruct Hi as [[[[]|[[Hf _] ->]]|[[Hf _] ->]]|[[Hf _] ->]];
    destruct Hj as [[[[[[]|[[Hg _] ->]]|[[Hg _] ->]]|[[Hg _] ->]]|[_ ->]]|[_ ->]];
      cbn [label String.append]; try congruence; discriminate.
Qed.

(** The two subtotals are the sums, from left to right, of the amounts of
    their item lists. *)
Theorem subtotals_are_sums (data : FormData) :
  let b := calculateCostBreakdown data in
  prepaidTotal b = sum_amounts (prepaidItems b)
  /\ reimbursementTotal b = sum_amounts (reimbursementItems b).
Proof.
  cbn zeta. unfold calculateCostBreakdown.
  cbn [prepaidTotal prepaidItems reimbursementTotal reimbursementItems].
  split; repeat apply push_if_sum; reflexivity.
Qed.

(** While [hotel_cost] parses to a number other than zero, [hotel_total]
    is not looked at: the breakdown is the same whatever it holds.
    Otherwise the hotel amount is read from [hotel_total]. *)
Theorem hotel_cost_comes_first (data : FormData) :
  (JS.truthy (parseFloat (hotel_cost data)) = true ->
   hotel (calculateCostBreakdown data) = parseFloat (hotel_cost data)
   /\ forall v, calculateCostBreakdown (with_hotel_total v data)
                = calculateCostBreakdown data)
  /\ (JS.truthy (parseFloat (hotel_cost data)) = false ->
      hotel (calculateCostBreakdown data)
      = JS.or (parseFloat (hotel_total data)) JS.zero).
Proof.
  unfold calculateCostBreakdown, with_hotel_total, JS.or.
  cbn [registration_fee hotel_cost hotel_total flight_cost mileage_needed
       mileage_miles mileage_total meals_needed meals_total
       pay_ahead_registration pay_ahead_hotel pay_ahead_flight hotel].
  split; intros H; rewrite !H.
  - split; reflexivity.
  - reflexivity.
Qed.

Lemma hotel_cost_comes_first_witness :
  JS.toString (hotel (calculateCostBreakdown stale_form)) = "250"
  /\ calculateCostBreakdown (with_hotel_total (Some "999") stale_form)
     = calculateCostBreakdown stale_form.
Proof.
  destruct (hotel_cost_comes_first stale_form) as [H _].
  destruct (H eq_refl) as [Hh Hv]. split.
  - rewrite Hh. vm_compute. reflexivity.
  - apply Hv.
Defined.

(** A mileage or meals total counts only when its "needed" flag is set:
    with the flag off the amount is zero and the breakdown is the same
    whatever the total holds. *)
Theorem totals_need_their_flag (data : FormData) :
  (mileage_needed data = false ->
   mileage (calculateCostBreakdown data) = JS.zero
   /\ forall v, calculateCostBreakdown (with_mileage_total v data)
                = calculateCostBreakdown data)
  /\ (meals_needed data = false ->
      meals (calculateCostBreakdown data) = JS.zero
      /\ forall v, calculateCostBreakdown (with_meals_total v data)
                   = calculateCostBreakdown data).
Proof.
  unfold calculateCostBreakdown, with_mileage_total, with_meals_total.
  cbn [registration_fee hotel_cost hotel_total flight_cost mileage_needed
       mileage_miles mileage_total meals_needed meals_total
       pay_ahead_registration pay_ahead_hotel pay_ahead_flight mileage meals].
  split; intros H; rewrite !H; split; reflexivity.
Qed.

Lemma totals_need_their_flag_witness :
  mileage (calculateCostBreakdown stale_form) = JS.zero
  /\ meals (calculateCostBreakdown stale_form) = JS.zero.
Proof.
  destruct (totals_need_their_flag stale_form) as [Hmi Hme]. split.
  - apply (Hmi eq_refl).
  - apply (Hme eq_refl).
Defined.

Lemma add_zero_plain x : plain_amount x -> JS.add JS.zero x = x.
Proof. intros [-> | H]; [reflexivity|]. destruct x as [| [] | |]; try discriminate; reflexivity. Qed.

Lemma or_falsy x y : JS.truthy x = false -> JS.or x y = y.
Proof. unfold JS.or. intros ->. reflexivity. Qed.

Lemma or_truthy x y : JS.truthy x = true -> JS.or x y = x.
Proof. unfold JS.or. intros ->. reflexivity. Qed.

(** The total computed for the requester's notification by the earlier
    revision of the decision handler equals the total shown to the
    approver whenever the two readings of the form coincide: [hotel_cost]
    is set (or [hotel_total] is not), and a mileage or meals total is
    present only with its flag. *)
Theorem totals_coincide_across_paths (data : FormData) :
  JS.truthy (parseFloat (hotel_cost data)) = true
  \/ JS.truthy (parseFloat (hotel_total data)) = false ->
  mileage_needed data = true
  \/ JS.truthy (parseFloat (mileage_total data)) = false ->
  meals_needed data = true
  \/ JS.truthy (parseFloat (meals_total data)) = false ->
  formatRequesterEmailHtml_totalCost data = formatEmailHtml_totalCost data.
Proof.
  intros Hh Hmi Hme.
  unfold formatRequesterEmailHtml_totalCost, formatEmailHtml_totalCost,
    calculateCostBreakdown. cbn [fold_left totalCost].
  rewrite add_zero_plain by apply plain_or_zero.
  assert (Eh : JS.or (JS.or (parseFloat (hotel_cost data))
                            (parseFloat (hotel_total data))) JS.zero
               = JS.or (parseFloat (hotel_cost data)) JS.zero).
  { destruct Hh as [H | H].
    - rewrite (or_truthy _ (parseFloat (hotel_total data)) H). reflexivity.
    - destruct (JS.truthy (parseFloat (hotel_cost data))) eqn:E.
      + rewrite (or_truthy _ (parseFloat (hotel_total data)) E). reflexivity.
      + rewrite (or_falsy _ (parseFloat (hotel_total data)) E).
        rewrite (or_falsy _ _ H), (or_falsy _ _ E). reflexivity. }
  rewrite Eh.
  assert (Emi : (if mileage_needed data
                 then JS.or (parseFloat (mileage_total data)) JS.zero
                 else JS.zero)
                = JS.or (parseFloat (mileage_total data)) JS.zero).
  { destruct Hmi as [-> | H]; [reflexivity|].
    rewrite (or_falsy _ _ H). destruct (mileage_needed data); reflexivity. }
  assert (Eme : (if meals_needed data
                 then JS.or (parseFloat (meals_total data)) JS.zero
                 else JS.zero)
                = JS.or (parseFloat (meals_total data)) JS.zero).
  { destruct Hme as [-> | H]; [reflexivity|].
    rewrite (or_falsy _ _ H). destruct (meals_needed data); reflexivity. }
  rewrite Emi, Eme. reflexivity.
Qed.

Lemma totals_coincide_across_paths_witness :
  formatRequesterEmailHtml_totalCost
    (with_mileage_total None (with_meals_total None stale_form))
  = formatEmailHtml_totalCost
      (with_mileage_total None (with_meals_total None stale_form)).
Proof.
  apply totals_coincide_across_paths.
  - left. reflexivity.
  - right. reflexivity.
  - right. reflexivity.
Defined.

Lemma prepaid_and_reimbursed_apart_witness :
  label {| label := "Registration";
           amount := registration (calculateCostBreakdown example_form) |}
  <> label {| label := "Hotel";
              amount := hotel (calculateCostBreakdown example_form) |}.
Proof.
  apply (proj2 (prepaid_and_reimbursed_apart example_form)).
  - vm_compute. apply list_elem_of_here.
  - vm_compute. apply list_elem_of_here.
Defined.

Lemma of_Z_truthy n : 0 <= n < 2 ^ 53 -> JS.truthy (JS.of_Z n) = (0 <? n).
Proof.
  intros Hn. destruct (Z.eq_dec n 0) as [->|Hn0]; [reflexivity|].
  rewrite of_Z_canon by lia.
  replace (0 <? n) with true by (symmetry; apply Z.ltb_lt; lia).
  reflexivity.
Qed.

Lemma of_Z_not_nan n :
  0 <= n < 2 ^ 53 ->
  match JS.of_Z n with S754_nan => JS.zero | num => num end = JS.of_Z n.
Proof.
  intros Hn. destruct (Z.eq_dec n 0) as [->|Hn0]; [reflexivity|].
  rewrite of_Z_canon by lia. reflexivity.
Qed.

(** A field that is blank or whole is read alike by the page and by the
    handler. *)
Lemma whole_or_blank_read v :
  whole_or_blank (parseFloat v) ->
  exists n, 0 <= n <= 2 ^ 50
    /\ UI.parseNumber v = JS.of_Z n
    /\ JS.or (parseFloat v) JS.zero = JS.of_Z n.
Proof.
  assert (H50 : 2 ^ 50 < 2 ^ 53) by reflexivity.
  unfold UI.parseNumber. intros [-> | (n & Hn & ->)].
  - exists 0. split; [lia|]. split; reflexivity.
  - exists n. split; [lia|]. split; [apply of_Z_not_nan; lia|].
    unfold JS.or. rewrite of_Z_truthy by lia.
    destruct (0 <? n) eqn:E; [reflexivity|].
    apply Z.ltb_ge in E. replace n with 0 by lia. reflexivity.
Qed.

(** For a form whose amounts are blank or non-negative whole numbers (up
    to 2^50) and whose [hotel_cost] is not set, the three totals that the
    page previews are the totals of the breakdown computed by the
    handlers. *)
Theorem preview_matches_breakdown (data : FormData) :
  whole_or_blank (parseFloat (registration_fee data)) ->
  whole_or_blank (parseFloat (hotel_total data)) ->
  whole_or_blank (parseFloat (flight_cost data)) ->
  whole_or_blank (parseFloat (mileage_total data)) ->
  whole_or_blank (parseFloat (meals_total data)) ->
  JS.truthy (parseFloat (hotel_cost data)) = false ->
  let preview := UI.totals data in
  let b := calculateCostBreakdown data in
  UI.prepaidTotal preview = prepaidTotal b
  /\ UI.reimbursementTotal preview = reimbursementTotal b
  /\ UI.grandTotal preview = totalCost b.
Proof.
  intros Hr Hh Hf Hmi Hme Hc. cbn zeta.
  apply whole_or_blank_read in Hr as (r & Hr & Ur & Sr).
  apply whole_or_blank_read in Hh as (h & Hh & Uh & Sh).
  apply whole_or_blank_read in Hf as (f & Hf & Uf & Sf).
  apply whole_or_blank_read in Hmi as (mi & Hmi & Umi & Smi).
  apply whole_or_blank_read in Hme as (me & Hme & Ume & Sme).
  assert (H50 : 2 ^ 50 * 8 = 2 ^ 53) by reflexivity.
  unfold UI.totals, calculateCostBreakdown.
  cbn [UI.prepaidTotal UI.reimbursementTotal UI.grandTotal
       prepaidTotal reimbursementTotal totalCost].
  rewrite (or_falsy _ (parseFloat (hotel_total data)) Hc).
  rewrite Ur, Uh, Uf, Sr, Sh, Sf.
  assert (Emi : exists mi', 0 <= mi' <= 2 ^ 50
    /\ (if mileage_needed data then UI.parseNumber (mileage_total data)
        else JS.zero) = JS.of_Z mi'
    /\ (if mileage_needed data
        then JS.or (parseFloat (mileage_total data)) JS.zero
        else JS.zero) = JS.of_Z mi').
  { destruct (mileage_needed data); [exists mi | exists 0]; repeat split;
      assumption || reflexivity || lia. }
  assert (Eme : exists me', 0 <= me' <= 2 ^ 50
    /\ (if meals_needed data then UI.parseNumber (meals_total data)
        else JS.zero) = JS.of_Z me'
    /\ (if meals_needed data
        then JS.or (parseFloat (meals_total data)) JS.zero
        else JS.zero) = JS.of_Z me').
  { destruct (meals_needed data); [exists me | exists 0]; repeat split;
      assumption || reflexivity || lia. }
  destruct Emi as (mi' & Hmi' & -> & ->).
  destruct Eme as (me' & Hme' & -> & ->).
  rewrite !gt_of_Z_zero by lia.
  destruct (pay_ahead_registration data), (pay_ahead_hotel data),
    (pay_ahead_flight data),
    (0 <? r) eqn:Er, (0 <? h) eqn:Eh, (0 <? f) eqn:Ef,
    (0 <? mi') eqn:Emi, (0 <? me') eqn:Eme;
    cbn [push_if andb negb fst snd amount];
    rewrite ?Z.ltb_lt, ?Z.ltb_ge in *;
    change JS.zero with (JS.of_Z 0);
    repeat (rewrite add_of_Z by lia);
    repeat split; f_equal; lia.
Qed.

Lemma preview_matches_breakdown_witness :
  UI.prepaidTotal (UI.totals example_form)
  = prepaidTotal (calculateCostBreakdown example_form)
  /\ UI.reimbursementTotal (UI.totals example_form)
     = reimbursementTotal (calculateCostBreakdown example_form)
  /\ UI.grandTotal (UI.totals example_form)
     = totalCost (calculateCostBreakdown example_form).
Proof.
  apply preview_matches_breakdown.
  - right. exists 120. split; [lia | reflexivity].
  - right. exists 300. split; [lia | reflexivity].
  - left. reflexivity.
  - right. exists 70. split; [lia | reflexivity].
  - left. reflexivity.
  - reflexivity.
Defined.
End BreakdownMore.

(** * More on request ids *)
Module IdsMore.
Import JSFacts Digits ToStringFacts Ids Allocation.

Lemma append_cons c (x y : string) : String c x ++ y = String c (x ++ y).
Proof. reflexivity. Qed.

Lemma append_nil (y : string) : EmptyString ++ y = y.
Proof. reflexivity. Qed.

Lemma dash_free_app_dash y z : dash_free (y ++ String "-" z) = false.
Proof.
  induction y as [|c y IH]; [reflexivity|].
  rewrite append_cons. cbn [dash_free]. rewrite IH. apply andb_false_r.
Qed.

Lemma dash_free_remove_dashes s : dash_free (remove_dashes s) = true.
Proof.
  induction s as [|c s IH]; [reflexivity|]. cbn [remove_dashes].
  destruct (Ascii.eqb c "-") eqn:E; [exact IH|].
  cbn [dash_free]. rewrite E, IH. reflexivity.
Qed.

Lemma dash_free_uint d : dash_free (NilEmpty.string_of_uint d) = true.
Proof. induction d; cbn; try rewrite IHd; reflexivity. Qed.

Lemma dash_free_decimal n : dash_free (JS.decimal n) = true.
Proof. apply dash_free_uint. Qed.

(** A string is cut in one way only at its last dash. *)
Lemma last_dash_unique x : forall x' a a',
  dash_free a = true -> dash_free a' = true ->
  x ++ String "-" a = x' ++ String "-" a' -> x = x' /\ a = a'.
Proof.
  induction x as [|c x IH]; intros [|c' x'] a a' Ha Ha' H;
    rewrite ?append_cons, ?append_nil in H.
  - injection H as ->. auto.
  - injection H as <- ->. rewrite dash_free_app_dash in Ha. discriminate.
  - injection H as -> <-. rewrite dash_free_app_dash in Ha'. discriminate.
  - injection H as -> H. destruct (IH _ _ _ Ha Ha' H) as [-> ->]. auto.
Qed.

Lemma string_app_assoc (a b c : string) : (a ++ b) ++ c = a ++ (b ++ c).
Proof.
  induction a as [|x a IH]; [reflexivity|].
  rewrite !append_cons, IH. reflexivity.
Qed.

(** An id is read back in one way only: the local part, the date and the
    sequence number of two equal ids are the same. *)
Lemma id_parts_unique u1 d1 n1 u2 d2 n2 :
  dash_free d1 = true -> dash_free d2 = true ->
  (u1 ++ "-" ++ d1) ++ "-" ++ JS.decimal n1
  = (u2 ++ "-" ++ d2) ++ "-" ++ JS.decimal n2 ->
  u1 = u2 /\ d1 = d2 /\ n1 = n2.
Proof.
  intros Hd1 Hd2 H. rewrite !append_cons, !append_nil in H.
  apply last_dash_unique in H as [H Hn]; try apply dash_free_decimal.
  apply last_dash_unique in H as [Hu Hd]; try assumption.
  apply decimal_inj in Hn. auto.
Qed.

(** Two allocations return the same id only for the same local part of
    the address, the same date and the same count: ids of different
    requesters, of different dates, or with different sequence numbers
    never coincide (counts below 2^53). *)
Theorem ids_tell_their_origin email1 today1 (store1 : Store) c1
    email2 today2 (store2 : Store) c2 :
  stored_count (store1 !! sequence_key (id_prefix email1 today1)) c1 ->
  stored_count (store2 !! sequence_key (id_prefix email2 today2)) c2 ->
  c1 + 1 < 2 ^ 53 -> c2 + 1 < 2 ^ 53 ->
  (generateRequestId email1 today1 store1).1
  = (generateRequestId email2 today2 store2).1 ->
  before_at email1 = before_at email2
  /\ remove_dashes (String.substring 0 10 today1)
     = remove_dashes (String.substring 0 10 today2)
  /\ c1 = c2.
Proof.
  intros Hs1 Hs2 Hb1 Hb2.
  rewrite (generateRequestId_stored _ _ _ c1 Hs1 Hb1).
  rewrite (generateRequestId_stored _ _ _ c2 Hs2 Hb2).
  cbn [fst]. unfold id_prefix. intros H.
  apply id_parts_unique in H as (Hu & Hd & Hn);
    try apply dash_free_remove_dashes.
  destruct Hs1, Hs2. repeat split; try assumption. lia.
Qed.

Lemma ids_tell_their_origin_witness :
  before_at "alice@x.org" = before_at "alice@y.org"
  /\ remove_dashes (String.substring 0 10 "2025-03-15T09:00:00.000Z")
     = remove_dashes (String.substring 0 10 "2025-03-15T23:59:59.999Z")
  /\ 0 = 0.
Proof.
  assert (Hs : stored_count ((∅ : Store) !! sequence_key "alice-20250315") 0).
  { split; [lia|]. left. split; [apply lookup_empty | reflexivity]. }
  apply (ids_tell_their_origin
           "alice@x.org" "2025-03-15T09:00:00.000Z" ∅ 0
           "alice@y.org" "2025-03-15T23:59:59.999Z" ∅ 0 Hs Hs);
    reflexivity.
Defined.

Lemma before_at_app local rest :
  at_free local = true -> before_at (local ++ String "@" rest) = local.
Proof.
  induction local as [|c l IH]; [reflexivity|].
  rewrite append_cons. cbn [before_at at_free]. intros H. apply andb_true_iff in H as [Hc Hl].
  apply negb_true_iff in Hc. rewrite Hc, (IH Hl). reflexivity.
Qed.

Lemma before_at_none s : at_free s = true -> before_at s = s.
Proof.
  induction s as [|c s IH]; cbn [before_at at_free]; [reflexivity|].
  intros H. apply andb_true_iff in H as [Hc Hs].
  apply negb_true_iff in Hc. rewrite Hc, (IH Hs). reflexivity.
Qed.

Lemma remove_dashes_free s : dash_free s = true -> remove_dashes s = s.
Proof.
  induction s as [|c s IH]; cbn [remove_dashes dash_free]; [reflexivity|].
  intros H. apply andb_true_iff in H as [Hc Hs].
  apply negb_true_iff in Hc. rewrite Hc, (IH Hs). reflexivity.
Qed.

(** The first allocation of the day for [local@domain] at an instant
    [YYYY-MM-DD...] returns [local-YYYYMMDD-1]; an address without "@" is
    taken whole as the local part. *)
Theorem id_format (local domain yyyy mm dd rest : string) (store : Store) :
  at_free local = true ->
  String.length yyyy = 4%nat -> String.length mm = 2%nat ->
  String.length dd = 2%nat ->
  dash_free yyyy = true -> dash_free mm = true -> dash_free dd = true ->
  let today := yyyy ++ "-" ++ mm ++ "-" ++ dd ++ rest in
  let prefix := local ++ "-" ++ yyyy ++ mm ++ dd in
  id_prefix (local ++ "@" ++ domain) today = prefix
  /\ id_prefix local today = prefix
  /\ (store !! sequence_key prefix = None ->
      (generateRequestId (local ++ "@" ++ domain) today store).1
      = prefix ++ "-1").
Proof.
  intros Hl Hy Hm Hd Fy Fm Fd. cbn zeta.
  assert (Hdate : remove_dashes
            (String.substring 0 10 (yyyy ++ "-" ++ mm ++ "-" ++ dd ++ rest))
          = yyyy ++ mm ++ dd).
  { destruct yyyy as [|y1 [|y2 [|y3 [|y4 [|]]]]]; try discriminate.
    destruct mm as [|m1 [|m2 [|]]]; try discriminate.
    destruct dd as [|d1 [|d2 [|]]]; try discriminate.
    rewrite ?append_cons, ?append_nil. cbn [String.substring].
    assert (String.substring 0 0 rest = EmptyString) as ->
      by (destruct rest; reflexivity).
    cbn [dash_free] in Fy, Fm, Fd.
    repeat match goal with
    | H : _ && _ = true |- _ => apply andb_true_iff in H as [? ?]
    | H : negb _ = true |- _ => apply negb_true_iff in H
    end.
    cbn [remove_dashes]. cbn [Ascii.eqb Bool.eqb].
    repeat match goal with H : Ascii.eqb _ _ = false |- _ => rewrite H; clear H end.
    reflexivity. }
  assert (Hp1 : id_prefix (local ++ "@" ++ domain)
                  (yyyy ++ "-" ++ mm ++ "-" ++ dd ++ rest)
                = local ++ "-" ++ yyyy ++ mm ++ dd).
  { unfold id_prefix. rewrite Hdate.
    change ("@" ++ domain) with (String "@" domain).
    rewrite before_at_app by assumption. reflexivity. }
  split; [exact Hp1|]. split.
  - unfold id_prefix. rewrite Hdate, before_at_none by assumption. reflexivity.
  - intros Hn. unfold generateRequestId. rewrite Hp1, Hn. reflexivity.
Qed.

Lemma id_format_witness :
  (generateRequestId ("dzager" ++ "@" ++ "reva16.org")
     ("2025" ++ "-" ++ "12" ++ "-" ++ "18" ++ "T08:15:00.000Z") ∅).1
  = ("dzager" ++ "-" ++ "2025" ++ "12" ++ "18") ++ "-1".
Proof.
  apply (id_format "dzager" "reva16.org" "2025" "12" "18" "T08:15:00.000Z" ∅);
    try reflexivity.
Defined.

Lemma allocate_all_stuck email prefix id x todays : forall store : Store,
  store !! sequence_key prefix = Some (Sequence x) ->
  next_sequence (Some (Sequence x)) = x ->
  id = prefix ++ "-" ++ JS.toString x ->
  Forall (fun today => id_prefix email today = prefix) todays ->
  allocate_all email todays store = (same_id (length todays) id, store).
Proof.
  induction todays as [|today rest IH]; intros store Hl Hn Hid Hall;
    [reflexivity|].
  inversion Hall as [|? ? Hp Hrest]; subst.
  cbn [allocate_all]. unfold generateRequestId.
  rewrite Hl, Hn, (insert_id _ _ _ Hl), (IH store Hl Hn eq_refl Hrest).
  reflexivity.
Qed.

(** At a count of 2^53 the counter is stuck: adding one no longer changes
    the number, so every further allocation for that requester and date
    returns the id numbered 9007199254740992 and leaves the store as it
    is. *)
Theorem counter_sticks_at_2_53 email prefix todays (store : Store) :
  store !! sequence_key prefix = Some (Sequence (JS.of_Z (2 ^ 53))) ->
  Forall (fun today => id_prefix email today = prefix) todays ->
  allocate_all email todays store
  = (same_id (length todays) (prefix ++ "-9007199254740992"), store).
Proof.
  intros Hl Hall.
  apply (allocate_all_stuck email prefix _ (JS.of_Z (2 ^ 53)));
    try assumption.
  - vm_compute. reflexivity.
  - f_equal.
Qed.

Lemma counter_sticks_at_2_53_witness :
  allocate_all "alice@x.org"
    ["2025-03-15T09:00:00.000Z"; "2025-03-15T09:00:01.000Z"]
    (<[sequence_key "alice-20250315" := Sequence (JS.of_Z (2 ^ 53))]> ∅)
  = (["alice-20250315-9007199254740992"; "alice-20250315-9007199254740992"],
     <[sequence_key "alice-20250315" := Sequence (JS.of_Z (2 ^ 53))]> ∅).
Proof.
  apply (counter_sticks_at_2_53 "alice@x.org" "alice-20250315").
  - apply lookup_insert_eq.
  - repeat constructor.
Defined.

(** Once the text under a sequence key is not the text of a number (a
    request record was stored under it, or NaN or an infinity), an
    allocation returns [<prefix>-NaN] and stores NaN, and so does every
    allocation after it. *)
Theorem counter_lost email prefix today todays (store : Store) :
  not_a_count (store !! sequence_key prefix) ->
  id_prefix email today = prefix ->
  Forall (fun today' => id_prefix email today' = prefix) todays ->
  generateRequestId email today store
  = (prefix ++ "-NaN", <[sequence_key prefix := Sequence JS.NaN]> store)
  /\ (allocate_all email todays (generateRequestId email today store).2).1
     = same_id (length todays) (prefix ++ "-NaN").
Proof.
  intros Hn Hp Hall.
  assert (Hfirst : generateRequestId email today store
    = (prefix ++ "-NaN", <[sequence_key prefix := Sequence JS.NaN]> store)).
  { unfold generateRequestId. rewrite Hp.
    destruct Hn as [[r ->] | [-> | [[] ->]]]; reflexivity. }
  split; [exact Hfirst|]. rewrite Hfirst. cbn [snd].
  rewrite (allocate_all_stuck email prefix (prefix ++ "-NaN") JS.NaN);
    try reflexivity; try assumption.
  apply lookup_insert_eq.
Qed.

Lemma counter_lost_witness :
  generateRequestId "alice@x.org" "2025-03-15T09:00:00.000Z"
    (<[sequence_key "alice-20250315" := Request sample_record]> ∅)
  = ("alice-20250315-NaN",
     <[sequence_key "alice-20250315" := Sequence JS.NaN]>
       (<[sequence_key "alice-20250315" := Request sample_record]> ∅)).
Proof.
  apply (counter_lost "alice@x.org" "alice-20250315"
           "2025-03-15T09:00:00.000Z" []).
  - left. exists sample_record. apply lookup_insert_eq.
  - reflexivity.
  - constructor.
Defined.
End IdsMore.

(** * More on the submission handler *)
Module SubmittingMore.
Import JSFacts ToStringFacts Ids Allocation Deciding Lifecycle.

(** When the approver or the disburser is not configured, an
    authenticated submission with an address is answered 500 after the
    sequence number was taken: nothing is stored under the new id and no
    message is sent, yet the number is spent, and the requester's next
    request of that day gets the number after it. *)
Theorem misconfigured_submit_spends_number env resend req (store : Store)
    form address c :
  submit_method req = "POST" -> is_Some (submit_user req) ->
  submit_json req = Some form -> email form = Some address ->
  truthy (TRAINING_APPROVER_EMAIL env) = false
  \/ truthy (TRAINING_DISBURSER_EMAIL env) = false ->
  let prefix := id_prefix address (submit_today req) in
  stored_count (store !! sequence_key prefix) c -> c + 2 < 2 ^ 53 ->
  let out := submit_handler env resend req store in
  code (response out) = 500 /\ outbox out = []
  /\ store_after out
     = <[sequence_key prefix := Sequence (JS.of_Z (c + 1))]> store
  /\ store_after out !! (prefix ++ "-" ++ JS.decimal (Z.to_N (c + 1)))
     = store !! (prefix ++ "-" ++ JS.decimal (Z.to_N (c + 1)))
  /\ (generateRequestId address (submit_today req) (store_after out)).1
     = prefix ++ "-" ++ JS.decimal (Z.to_N (c + 2)).
Proof.
  intros Hm [user Hu] Hj He Hcfg prefix Hs Hb out.
  assert (Hout : code (response out) = 500 /\ outbox out = []
    /\ store_after out
       = <[sequence_key prefix := Sequence (JS.of_Z (c + 1))]> store).
  { subst out. unfold submit_handler.
    rewrite Hm, Hu, Hj, He. cbn [String.eqb Ascii.eqb Bool.eqb negb andb].
    rewrite (generateRequestId_stored address _ store c Hs) by lia.
    destruct Hcfg as [Ha | Hd].
    - rewrite Ha. cbn. auto.
    - rewrite Hd. destruct (truthy (TRAINING_APPROVER_EMAIL env)); cbn; auto. }
  destruct Hout as (Hc & Ho & Hst). repeat split; try assumption.
  - rewrite Hst. apply lookup_insert_ne.
    intros E. symmetry in E. revert E.
    rewrite <- (toString_of_Z (c + 1)) by (destruct Hs; lia).
    apply id_not_sequence_key.
  - rewrite Hst.
    rewrite (generateRequestId_stored address _ _ (c + 1)).
    + cbn [fst]. do 3 f_equal. lia.
    + split; [destruct Hs; lia|]. right. apply lookup_insert_eq.
    + lia.
Qed.

Lemma misconfigured_submit_spends_number_witness :
  (generateRequestId "alice@x.org" "2025-03-15T09:00:00.000Z"
     (store_after
        (submit_handler
           {| TRAINING_APPROVER_EMAIL := None;
              TRAINING_DISBURSER_EMAIL := Some "disburser@reva16.org";
              RESEND_API_KEY := Some "re_key" |}
           delivering sample_submission ∅))).1
  = "alice-20250315" ++ "-" ++ JS.decimal (Z.to_N (0 + 2)).
Proof.
  apply (misconfigured_submit_spends_number
           {| TRAINING_APPROVER_EMAIL := None;
              TRAINING_DISBURSER_EMAIL := Some "disburser@reva16.org";
              RESEND_API_KEY := Some "re_key" |}
           delivering sample_submission ∅ example_form "alice@x.org" 0).
  - reflexivity.
  - eexists. reflexivity.
  - reflexivity.
  - reflexivity.
  - left. reflexivity.
  - split; [lia|]. left. split; [apply lookup_empty | reflexivity].
  - reflexivity.
Defined.

Lemma submit_success env resend req (store : Store) id emailId :
  response (submit_handler env resend req store)
  = {| code := 200; body := Json_success id emailId |} ->
  exists user form,
    submit_user req = Some user /\ submit_json req = Some form
    /\ store_after (submit_handler env resend req store) !! id
       = Some (Request {| formData := form;
                          token := submit_token req;
                          status := "pending";
                          submittedAt := submit_now req;
                          submittedBy := user_email user;
                          decidedAt := None;
                          comments := None;
                          requestId := None |}).
Proof.
  unfold submit_handler.
  destruct (negb (String.eqb _ _)); [discriminate|].
  destruct (submit_user req) as [user|]; [|discriminate].
  destruct (submit_json req) as [form|]; [|discriminate].
  destruct (email form) as [address|]; [|discriminate].
  destruct (generateRequestId _ _ _) as [id' store1].
  destruct (negb (truthy (TRAINING_APPROVER_EMAIL env))); [discriminate|].
  destruct (negb (truthy (TRAINING_DISBURSER_EMAIL env))); [discriminate|].
  destruct (negb (truthy (RESEND_API_KEY env))); [discriminate|].
  destruct (resend _); [|discriminate].
  cbn [response store_after]. intros [= -> ->].
  exists user, form. repeat split. apply lookup_insert_eq.
Qed.

(** A submission answered 200 can be decided: a well-formed decision
    request that carries the id of the response and the token of the
    submission gets the confirmation page, and the record then holds the
    decision together with the form, the instant and the author of the
    submission. *)
Theorem submit_then_decide env resend req (store : Store) id emailId
    env' resend' dreq decision remarks :
  response (submit_handler env resend req store)
  = {| code := 200; body := Json_success id emailId |} ->
  well_formed dreq id (submit_token req) decision remarks ->
  let store1 := store_after (submit_handler env resend req store) in
  let out := decide_handler env' resend' dreq store1 in
  response out = confirmation decision id
  /\ exists r,
       store_after out !! id = Some (Request r)
       /\ status r = decision /\ comments r = Some remarks
       /\ decidedAt r = Some (decide_now dreq)
       /\ Some (formData r) = submit_json req
       /\ submittedAt r = submit_now req
       /\ Some (submittedBy r) = user_email <$> submit_user req.
Proof.
  intros Hr Hwf store1 out.
  destruct (submit_success _ _ _ _ _ _ Hr) as (user & form & Hu & Hj & Hl).
  fold store1 in Hl.
  assert (Hc := decide_check_well_formed dreq id _ decision remarks store1 Hwf).
  rewrite Hl in Hc. cbn [token status] in Hc.
  rewrite String.eqb_refl in Hc. cbn in Hc.
  subst out. unfold decide_handler. rewrite Hc.
  split; [apply decide_commit_response|].
  eexists. split.
  { unfold decide_commit. destruct (negb _); [|destruct (_ && _)];
      cbn [store_after]; apply lookup_insert_eq. }
  cbn. rewrite Hu, Hj. repeat split.
Qed.

Lemma submit_then_decide_witness :
  response
    (decide_handler sample_env failing sample_accept
       (store_after (submit_handler sample_env delivering sample_submission ∅)))
  = confirmation "accepted" "alice-20250315-1".
Proof.
  apply (submit_then_decide sample_env delivering sample_submission ∅
           "alice-20250315-1" (Some "msg-1") sample_env failing sample_accept
           "accepted" EmptyString).
  - vm_compute. reflexivity.
  - exact well_formed_sample_accept.
Defined.

Lemma submit_handler_dom env resend req (store : Store) :
  dom store ⊆ dom (store_after (submit_handler env resend req store)).
Proof.
  destruct (submit_handler_store env resend req store)
    as [-> | (fd & a & _ & _ & [-> | (r & -> & _)])];
    rewrite ?dom_insert_L; set_solver.
Qed.

Lemma decide_handler_dom env resend req (store : Store) :
  dom (store_after (decide_handler env resend req store)) = dom store.
Proof.
  destruct (decide_handler_store env resend req store)
    as [-> | (id & d & c & r & Hc & ->)]; [reflexivity|].
  apply decide_check_inr in Hc as (Hl & _).
  rewrite dom_insert_L. apply elem_of_dom_2 in Hl.
  apply set_eq. intros k. rewrite elem_of_union, elem_of_singleton.
  split; [intros [-> | ?]; assumption | auto].
Qed.

(** Nothing is ever deleted: whatever submissions and decisions are
    made, every key of the store is still there afterwards.  A decision
    adds no key either. *)
Theorem nothing_is_deleted (ops : list Op) (store : Store) :
  dom store ⊆ dom (run_ops ops store)
  /\ forall env resend req,
       dom (store_after (decide_handler env resend req store)) = dom store.
Proof.
  split; [|intros; apply decide_handler_dom].
  revert store. induction ops as [|op ops IH]; intros store; [reflexivity|].
  cbn [run_ops fold_left]. etrans; [|apply IH].
  destruct op; cbn [apply_op];
    [apply submit_handler_dom | rewrite decide_handler_dom; reflexivity].
Qed.

(** The handler takes the requester from the form, not from the session:
    under another session the same submission gets the same response, the
    same id and the same message, and the stored record differs in
    [submittedBy] alone. *)
Theorem submit_ignores_session env resend req (store : Store) user user' :
  let out := submit_handler env resend (with_user req (Some user)) store in
  let out' := submit_handler env resend (with_user req (Some user')) store in
  response out' = response out /\ outbox out' = outbox out
  /\ forall k,
       store_after out' !! k = store_after out !! k
       \/ exists r,
            store_after out !! k = Some (Request r)
            /\ store_after out' !! k
               = Some (Request (with_submittedBy r (user_email user'))).
Proof.
  cbn zeta. unfold submit_handler, with_user.
  cbn [submit_method submit_user submit_json submit_today submit_token
       submit_now].
  destruct (negb (String.eqb _ _)); [auto|].
  destruct (submit_json req) as [form|]; [|auto].
  destruct (email form) as [address|]; [|auto].
  destruct (generateRequestId _ _ _) as [id store1].
  destruct (negb (truthy (TRAINING_APPROVER_EMAIL env))); [auto|].
  destruct (negb (truthy (TRAINING_DISBURSER_EMAIL env))); [auto|].
  assert (Hk : forall k (r r' : RequestData),
    r' = with_submittedBy r (user_email user') ->
    <[id := Request r']> store1 !! k = <[id := Request r]> store1 !! k
    \/ exists r0, <[id := Request r]> store1 !! k = Some (Request r0)
         /\ <[id := Request r']> store1 !! k
            = Some (Request (with_submittedBy r0 (user_email user')))).
  { intros k r r' ->. destruct (decide (id = k)) as [->|Hne].
    - right. exists r. rewrite !lookup_insert_eq. auto.
    - left. rewrite !lookup_insert_ne by assumption. reflexivity. }
  destruct (negb (truthy (RESEND_API_KEY env))).
  { cbn [response outbox store_after]. repeat split. intros k. apply Hk.
    reflexivity. }
  destruct (resend _); cbn [response outbox store_after];
    (repeat split; intros k; apply Hk; reflexivity).
Qed.
End SubmittingMore.

(** * More on the decision handler *)
Module DecidingMore.
Import Deciding Lifecycle Overlap OverlapDecide.

Lemma decide_check_empty req (store : Store) early :
  decide_check req ∅ = inl early -> code early <> 404 ->
  decide_check req store = inl early.
Proof.
  unfold decide_check.
  destruct (negb (String.eqb _ _)); [auto|].
  destruct (form_requestId _) as [[|c1 r1]|]; auto.
  destruct (form_token _) as [[|c2 r2]|]; auto.
  destruct (form_decision _) as [[|c3 r3]|]; auto.
  destruct (negb (_ || _)); [auto|].
  destruct (_ && _); [auto|].
  rewrite lookup_empty. intros [= <-]. cbn. congruence.
Qed.

(** The fields of a decision request are validated before the store is
    read: a request that is refused on an empty store with anything but
    "not found" is refused in the same way whatever the store holds, and
    leaves it as it is. *)
Theorem decide_validates_first env resend req (store : Store) :
  code (response (decide_handler env resend req ∅)) <> 404 ->
  decide_handler env resend req store
  = {| response := response (decide_handler env resend req ∅);
       store_after := store; outbox := [] |}.
Proof.
  unfold decide_handler.
  destruct (decide_check req ∅) as [early | [[[id d] c] r]] eqn:E.
  - cbn [response]. intros H.
    rewrite (decide_check_empty req store early E H). reflexivity.
  - apply decide_check_inr in E as (Hl & _).
    rewrite lookup_empty in Hl. discriminate.
Qed.

Lemma decide_validates_first_witness :
  decide_handler sample_env delivering
    (decide_request "alice-20250315-1" sample_token "postponed" EmptyString
       "2025-03-16T10:00:00.000Z") sample_store
  = {| response := {| code := 400; body := Plain "Invalid decision value" |};
       store_after := sample_store; outbox := [] |}.
Proof.
  apply (decide_validates_first sample_env delivering
           (decide_request "alice-20250315-1" sample_token "postponed"
              EmptyString "2025-03-16T10:00:00.000Z") sample_store).
  vm_compute. discriminate.
Defined.

Lemma skip_white_blank s : JS.skip_white s = EmptyString <-> blank s = true.
Proof.
  induction s as [|c s IH]; cbn [JS.skip_white blank]; [tauto|].
  destruct (JS.is_white c); cbn [andb]; [exact IH|].
  split; discriminate.
Qed.

Lemma reverse_onto_empty s : forall acc,
  reverse_onto s acc = EmptyString <-> s = EmptyString /\ acc = EmptyString.
Proof.
  induction s as [|c s IH]; intros acc; cbn [reverse_onto].
  - tauto.
  - rewrite IH. split; [intros [_ H] | intros [H _]]; discriminate.
Qed.

(** [trim] leaves nothing exactly of the strings of white space. *)
Lemma trim_blank s : trim s = EmptyString <-> blank s = true.
Proof.
  unfold trim. rewrite reverse_onto_empty, <- skip_white_blank.
  split.
  - intros [H _]. destruct (JS.skip_white s) as [|c r] eqn:E; [reflexivity|].
    exfalso.
    assert (Hw : JS.is_white c = false).
    { clear H. induction s as [|c' s IH]; [discriminate|].
      cbn [JS.skip_white] in E. destruct (JS.is_white c') eqn:Ec; [auto|].
      injection E as -> _. exact Ec. }
    assert (Hrev : forall u acc, JS.skip_white acc <> EmptyString ->
              JS.skip_white (reverse_onto u acc) <> EmptyString).
    { induction u as [|d u IHu]; intros acc Hacc; cbn [reverse_onto];
        [exact Hacc|].
      apply IHu. cbn [JS.skip_white].
      destruct (JS.is_white d); [exact Hacc | discriminate]. }
    apply (Hrev r (String c EmptyString)).
    + cbn [JS.skip_white]. rewrite Hw. discriminate.
    + exact H.
  - intros ->. auto.
Qed.

(** A decision to send back or to reject whose comments are blank is
    refused with "comments required" before the store is read: the id may
    be unknown and the token wrong.  Comments in ASCII that are not blank
    never get that answer. *)
Theorem blank_comments_refused env resend id tok d remarks now
    (store : Store) :
  id <> EmptyString -> tok <> EmptyString ->
  d = "sent_back" \/ d = "rejected" ->
  let out := decide_handler env resend (decide_request id tok d remarks now)
               store in
  (blank remarks = true ->
   out = {| response := comments_required; store_after := store;
            outbox := [] |})
  /\ (ascii_text remarks = true -> blank remarks = false ->
      response out <> comments_required).
Proof.
  intros Hid Htok Hd out.
  destruct (nonempty_string id Hid) as (c1 & r1 & ->).
  destruct (nonempty_string tok Htok) as (c2 & r2 & ->).
  assert (Hform : form_comments (parseFormData
            (decide_params (decide_request (String c1 r1) (String c2 r2) d
               remarks now))) = remarks).
  { unfold parseFormData, decide_request.
    cbn [decide_params form_comments params_get String.eqb Ascii.eqb
         Bool.eqb].
    destruct remarks; reflexivity. }
  assert (Hcheck : decide_check (decide_request (String c1 r1) (String c2 r2)
                     d remarks now) store
    = if negb (match trim remarks with String _ _ => true | _ => false end)
      then inl comments_required
      else match store !! String c1 r1 with
        | None => inl request_not_found
        | Some (Sequence x) =>
            if is_json_number x then inl invalid_token
            else inl {| code := 500; body := Plain "Internal server error" |}
        | Some (Request r) =>
            if negb (String.eqb (token r) (String c2 r2)) then inl invalid_token
            else if negb (String.eqb (status r) "pending")
                 then inl (already_processed (status r))
                 else inr (String c1 r1, d, remarks, r)
        end).
  { unfold decide_check. rewrite Hform.
    destruct Hd as [-> | ->]; reflexivity. }
  subst out. unfold decide_handler. rewrite Hcheck. split.
  - intros Hb. apply trim_blank in Hb. rewrite Hb. reflexivity.
  - intros _ Hb. destruct (trim remarks) as [|c r] eqn:Et.
    { apply trim_blank in Et. congruence. }
    cbn [negb].
    destruct (store !! String c1 r1) as [[x|r0]|].
    + destruct (is_json_number x); discriminate.
    + destruct (negb (String.eqb (token r0) _)); [discriminate|].
      destruct (negb (String.eqb (status r0) _)); [discriminate|].
      rewrite decide_commit_response. discriminate.
    + discriminate.
Qed.

Lemma blank_comments_refused_witness :
  decide_handler sample_env delivering
    (decide_request "alice-20250315-1" sample_token "rejected" "  "
       "2025-03-16T10:00:00.000Z") sample_store
  = {| response := comments_required; store_after := sample_store;
       outbox := [] |}.
Proof.
  apply (blank_comments_refused sample_env delivering "alice-20250315-1"
           sample_token "rejected" "  " "2025-03-16T10:00:00.000Z"
           sample_store); try discriminate.
  - right. reflexivity.
  - reflexivity.
Defined.

(** A decision request never touches a sequence number, and of a record
    it leaves the form, the token, the instant and the author of the
    submission as they are. *)
Theorem decide_keeps_submission env resend req (store : Store) :
  let out := decide_handler env resend req store in
  (forall k x, store !! k = Some (Sequence x) ->
     store_after out !! k = Some (Sequence x))
  /\ (forall k r, store !! k = Some (Request r) ->
        exists r', store_after out !! k = Some (Request r')
          /\ formData r' = formData r /\ token r' = token r
          /\ submittedAt r' = submittedAt r
          /\ submittedBy r' = submittedBy r).
Proof.
  cbn zeta.
  destruct (decide_handler_store env resend req store)
    as [-> | (id & d & c & r0 & Hc & ->)].
  { split; [auto|]. intros k r Hl. exists r. auto. }
  apply decide_check_inr in Hc as (Hl0 & _). split.
  - intros k x Hl. rewrite lookup_insert_ne; [exact Hl|].
    intros ->. congruence.
  - intros k r Hl. destruct (decide (id = k)) as [->|Hne].
    + rewrite lookup_insert_eq. eexists. split; [reflexivity|].
      assert (r0 = r) as -> by congruence. cbn. auto.
    + rewrite lookup_insert_ne by assumption. exists r. auto.
Qed.

Lemma decide_keeps_submission_witness :
  exists r', store_after
      (decide_handler sample_env delivering sample_accept sample_store)
      !! "alice-20250315-1" = Some (Request r')
    /\ formData r' = formData sample_record /\ token r' = token sample_record
    /\ submittedAt r' = submittedAt sample_record
    /\ submittedBy r' = submittedBy sample_record.
Proof.
  apply (proj2 (decide_keeps_submission sample_env delivering sample_accept
                  sample_store)).
  exact sample_store_lookup.
Defined.

(** Neither the configuration nor the notifier has a say in a decision:
    the response and the store are the same under any of them, and the
    messages do not depend on what the notifier answers. *)
Theorem decide_regardless env env' resend resend' req (store : Store) :
  response (decide_handler env' resend' req store)
  = response (decide_handler env resend req store)
  /\ store_after (decide_handler env' resend' req store)
     = store_after (decide_handler env resend req store)
  /\ outbox (decide_handler env resend' req store)
     = outbox (decide_handler env resend req store).
Proof.
  unfold decide_handler.
  destruct (decide_check req store) as [early | [[[id d] c] r]]; [auto|].
  rewrite !decide_commit_response, !decide_commit_store.
  split; [reflexivity|]. split; [reflexivity|].
  unfold decide_commit.
  destruct (negb _); [reflexivity|]. destruct (_ && _); reflexivity.
Qed.

(** Messages go out only once a decision has been written: first one to
    the address of the stored form, then, when the decision is to accept
    and a disburser is configured, one to the disburser.  Without an API
    key, and on every refusal, there is none. *)
Theorem decide_notifies env resend req (store : Store) :
  let out := decide_handler env resend req store in
  (code (response out) <> 200 -> outbox out = [])
  /\ (truthy (RESEND_API_KEY env) = false -> outbox out = [])
  /\ (forall id d c r,
        decide_check req store = inr (id, d, c, r) ->
        truthy (RESEND_API_KEY env) = true ->
        outbox out
        = requester_mail id d r
          :: (if String.eqb d "accepted"
                 && truthy (TRAINING_DISBURSER_EMAIL env)
              then [disburser_mail env id r] else [])).
Proof.
  cbn zeta. unfold decide_handler.
  destruct (decide_check req store) as [early | [[[id d] c] r]].
  { repeat split; try reflexivity. discriminate. }
  split; [|split].
  - rewrite decide_commit_response. cbn. congruence.
  - intros Hk. unfold decide_commit. rewrite Hk. reflexivity.
  - intros id' d' c' r' [= <- <- <- <-] Hk.
    unfold decide_commit. rewrite Hk. cbn [negb].
    destruct (_ && _); reflexivity.
Qed.

Lemma decide_notifies_witness :
  outbox (decide_handler sample_env delivering sample_accept sample_store)
  = requester_mail "alice-20250315-1" "accepted" sample_record
    :: (if String.eqb "accepted" "accepted"
           && truthy (TRAINING_DISBURSER_EMAIL sample_env)
        then [disburser_mail sample_env "alice-20250315-1" sample_record]
        else []).
Proof.
  apply (proj2 (proj2 (decide_notifies sample_env delivering sample_accept
                         sample_store))
           "alice-20250315-1" "accepted" EmptyString sample_record).
  - vm_compute. reflexivity.
  - reflexivity.
Defined.

End DecidingMore.

(** * Sessions *)
Module Sessions.
Import IdsMore.

Lemma append_length (a b : string) :
  String.length (a ++ b) = (String.length a + String.length b)%nat.
Proof.
  induction a as [|c a IH]; [reflexivity|].
  rewrite append_cons. cbn [String.length]. rewrite IH. reflexivity.
Qed.

Lemma substring_zero_all s : String.substring 0 (String.length s) s = s.
Proof. induction s as [|c s IH]; cbn; [|rewrite IH]; reflexivity. Qed.

Lemma substring_zero_zero s : String.substring 0 0 s = EmptyString.
Proof. destruct s; reflexivity. Qed.

Lemma substring_after pre s :
  String.substring (String.length pre) (String.length s) (pre ++ s) = s.
Proof.
  induction pre as [|c pre IH]; [apply substring_zero_all|].
  rewrite append_cons. exact IH.
Qed.

Lemma substring_split s : forall k, (k <= String.length s)%nat ->
  s = String.substring 0 k s
      ++ String.substring k (String.length s - k) s.
Proof.
  induction s as [|c s IH]; intros [|k] Hk; cbn in Hk |- *;
    try reflexivity; try lia.
  - rewrite substring_zero_all. reflexivity.
  - rewrite append_cons. f_equal. apply IH. lia.
Qed.

(** [endsWith] holds exactly of the strings that are something followed
    by the suffix. *)
Lemma ends_with_spec suffix s :
  ends_with suffix s = true <-> exists pre, s = pre ++ suffix.
Proof.
  unfold ends_with. cbn zeta. split.
  - intros H. apply andb_true_iff in H as [Hle He].
    apply Nat.leb_le in Hle. apply String.eqb_eq in He.
    exists (String.substring 0 (String.length s - String.length suffix) s).
    assert (Hsp := substring_split s
                     (String.length s - String.length suffix)).
    replace (String.length s - (String.length s - String.length suffix))%nat
      with (String.length suffix) in Hsp by lia.
    rewrite He in Hsp. apply Hsp. lia.
  - intros [pre ->]. rewrite append_length. apply andb_true_iff. split.
    + apply Nat.leb_le. lia.
    + apply String.eqb_eq.
      replace (String.length pre + String.length suffix
               - String.length suffix)%nat with (String.length pre) by lia.
      apply substring_after.
Qed.

Lemma append_cancel_r (c : string) : forall a b, a ++ c = b ++ c -> a = b.
Proof.
  induction a as [|x a IH]; intros [|y b] H;
    rewrite ?append_cons, ?append_nil in H.
  - reflexivity.
  - apply (f_equal String.length) in H. cbn [String.length] in H.
    rewrite append_length in H. lia.
  - apply (f_equal String.length) in H. cbn [String.length] in H.
    rewrite append_length in H. lia.
  - injection H as -> H. f_equal. apply IH, H.
Qed.

Lemma roles_of_local local :
  USER_ROLES (local ++ domain)
  = if String.eqb local "dzager"
    then Some ["admin"; "approver"; "disburser"] else None.
Proof.
  unfold USER_ROLES.
  destruct (String.eqb local "dzager") eqn:E.
  - apply String.eqb_eq in E as ->. reflexivity.
  - destruct (String.eqb (local ++ domain) _) eqn:E'; [|reflexivity].
    apply String.eqb_eq in E'.
    change "dzager@reva16.org" with ("dzager" ++ domain) in E'.
    apply append_cancel_r in E'. apply String.eqb_neq in E. contradiction.
Qed.

Lemma oauth_callback_signed_in code error tokenError profile session :
  oauth_callback code error tokenError profile = SignedIn session ->
  exists local p,
    profile = Some p /\ profile_email p = Some (local ++ domain)
    /\ session
       = {| payload_email := Some (local ++ domain);
            payload_name := profile_name p;
            payload_picture := profile_picture p;
            payload_sub := profile_id p;
            payload_roles :=
              Some (if String.eqb local "dzager"
                    then ["admin"; "approver"; "disburser"] else []) |}
    /\ truthy error = false /\ truthy code = true /\ tokenError = Some false.
Proof.
  unfold oauth_callback.
  destruct (truthy error); [discriminate|].
  destruct (truthy code); [|discriminate]. cbn [negb].
  destruct tokenError as [[|]|]; try discriminate.
  destruct profile as [p|]; [|discriminate].
  destruct (profile_error p); [discriminate|].
  destruct (profile_email p) as [address|] eqn:Em; [|discriminate].
  destruct (ends_with domain address) eqn:Ee; [|discriminate]. cbn [negb].
  apply ends_with_spec in Ee as [local ->].
  intros [= <-]. exists local, p. rewrite roles_of_local.
  split; [reflexivity|]. split; [exact Em|].
  split; [destruct (String.eqb local "dzager"); reflexivity|]. auto.
Qed.

(** The callback answers 302, with a session, only when Google reported
    no error and the address of the profile ends in "@reva16.org"; the
    session carries that address, and the three roles for dzager and no
    role for anyone else. *)
Theorem callback_signs_in code error tokenError profile :
  statusCode (oauth_callback code error tokenError profile) = 302 ->
  exists local session,
    oauth_callback code error tokenError profile = SignedIn session
    /\ payload_email session = Some (local ++ domain)
    /\ payload_roles session
       = Some (if String.eqb local "dzager"
               then ["admin"; "approver"; "disburser"] else [])
    /\ truthy error = false /\ truthy code = true.
Proof.
  destruct (oauth_callback code error tokenError profile) as [| | | | |s|]
    eqn:E; try discriminate.
  intros _.
  apply oauth_callback_signed_in in E
    as (local & p & _ & _ & -> & He & Hc & _).
  exists local. eexists. split; [reflexivity|]. cbn. auto.
Qed.

Lemma callback_signs_in_witness :
  exists local session,
    oauth_callback (Some "4/0AX4XfWh") None (Some false) (Some sample_profile)
    = SignedIn session
    /\ payload_email session = Some (local ++ domain)
    /\ payload_roles session
       = Some (if String.eqb local "dzager"
               then ["admin"; "approver"; "disburser"] else [])
    /\ truthy None = false /\ truthy (Some "4/0AX4XfWh") = true.
Proof.
  apply (callback_signs_in (Some "4/0AX4XfWh") None (Some false)
           (Some sample_profile)).
  reflexivity.
Defined.

Lemma after_prefix_app p : forall s rest,
  after_prefix p s = Some rest -> s = p ++ rest.
Proof.
  induction p as [|a p IH]; intros s rest; cbn [after_prefix].
  - intros [= ->]. reflexivity.
  - destruct s as [|b s]; [discriminate|].
    destruct (Ascii.eqb a b) eqn:E; [|discriminate].
    apply Ascii.eqb_eq in E as ->. intros H. rewrite append_cons.
    f_equal. apply IH, H.
Qed.

Lemma after_prefix_here p rest : after_prefix p (p ++ rest) = Some rest.
Proof.
  induction p as [|a p IH]; [reflexivity|].
  rewrite append_cons. cbn [after_prefix].
  rewrite Ascii.eqb_refl. exact IH.
Qed.

Lemma until_semicolon_split s :
  semicolon_free (until_semicolon s) = true
  /\ exists rest, s = until_semicolon s ++ rest /\ ends_value rest.
Proof.
  induction s as [|c s [IH1 (rest & IH2 & IH3)]]; cbn [until_semicolon].
  - split; [reflexivity|]. exists EmptyString. split; [reflexivity|].
    left. reflexivity.
  - destruct (Ascii.eqb c ";") eqn:E.
    + split; [reflexivity|]. apply Ascii.eqb_eq in E as ->.
      exists (String ";" s). split; [reflexivity|]. right. eauto.
    + split; [cbn [semicolon_free]; rewrite E; exact IH1|].
      exists rest. split; [|exact IH3]. rewrite append_cons.
      f_equal. exact IH2.
Qed.

Lemma until_semicolon_value v rest :
  semicolon_free v = true -> ends_value rest ->
  until_semicolon (v ++ rest) = v.
Proof.
  intros Hv Hr. induction v as [|c v IH].
  - destruct Hr as [-> | [r ->]]; reflexivity.
  - cbn [semicolon_free] in Hv. apply andb_true_iff in Hv as [Hc Hv].
    apply negb_true_iff in Hc.
    rewrite append_cons. cbn [until_semicolon].
    rewrite Hc, (IH Hv). reflexivity.
Qed.

(** What the pattern finds is a value of the header: it is not empty,
    holds no ";", follows the text "session=", and runs up to the next
    ";" or to the end. *)
Theorem session_cookie_sound cookies value :
  session_cookie cookies = Some value ->
  value <> EmptyString /\ semicolon_free value = true
  /\ exists pre rest,
       cookies = pre ++ "session=" ++ value ++ rest /\ ends_value rest.
Proof.
  induction cookies as [|c r IH]; [discriminate|].
  cbn [session_cookie].
  assert (Hrec : session_cookie r = Some value ->
    value <> EmptyString /\ semicolon_free value = true
    /\ exists pre rest,
         String c r = pre ++ "session=" ++ value ++ rest /\ ends_value rest).
  { intros H. destruct (IH H) as (H1 & H2 & pre & rest & -> & H3).
    repeat split; try assumption. exists (String c pre), rest. auto. }
  destruct (after_prefix "session=" (String c r)) as [after|] eqn:Ea;
    [|exact Hrec].
  destruct (until_semicolon after) as [|v1 v] eqn:Eu; [exact Hrec|].
  intros [= <-].
  destruct (until_semicolon_split after) as (Hf & rest & Hs & Hr).
  rewrite Eu in Hf, Hs.
  split; [discriminate|]. split; [exact Hf|].
  exists EmptyString, rest. split; [|exact Hr].
  apply after_prefix_app in Ea. rewrite Ea, Hs. reflexivity.
Qed.

Lemma session_cookie_sound_witness :
  "header.payload.signature" <> EmptyString
  /\ semicolon_free "header.payload.signature" = true
  /\ exists pre rest,
       "theme=dark; session=header.payload.signature; lang=en"
       = pre ++ "session=" ++ "header.payload.signature" ++ rest
       /\ ends_value rest.
Proof.
  apply (session_cookie_sound
           "theme=dark; session=header.payload.signature; lang=en"
           "header.payload.signature").
  reflexivity.
Defined.

Lemma session_cookie_first value rest :
  value <> EmptyString -> semicolon_free value = true -> ends_value rest ->
  session_cookie ("session=" ++ value ++ rest) = Some value.
Proof.
  intros Hne Hv Hr.
  change ("session=" ++ value ++ rest)
    with (String "s" ("ession=" ++ value ++ rest)).
  cbn [session_cookie].
  change (String "s" ("ession=" ++ value ++ rest))
    with ("session=" ++ (value ++ rest)).
  rewrite after_prefix_here, until_semicolon_value by assumption.
  destruct value; [contradiction | reflexivity].
Qed.

(** A value that follows "session=" at the start of the header is found
    as it is; and wherever the text "session=" is followed by a value, as
    in a cookie whose name only ends in "session", the pattern finds a
    session. *)
Theorem session_cookie_found value rest :
  value <> EmptyString -> semicolon_free value = true -> ends_value rest ->
  session_cookie ("session=" ++ value ++ rest) = Some value
  /\ forall pre,
       is_Some (session_cookie (pre ++ "session=" ++ value ++ rest)).
Proof.
  intros Hne Hv Hr.
  assert (H0 := session_cookie_first value rest Hne Hv Hr).
  split; [exact H0|].
  induction pre as [|c pre IH]; [rewrite append_nil, H0; eauto|].
  change (String c pre ++ "session=" ++ value ++ rest)
    with (String c (pre ++ "session=" ++ value ++ rest)).
  cbn [session_cookie].
  destruct (after_prefix _ _) as [after|]; [|exact IH].
  destruct (until_semicolon after); [exact IH | eauto].
Qed.

Lemma session_cookie_found_witness :
  is_Some (session_cookie ("old" ++ "session=" ++ "forged" ++ "; a=b")).
Proof.
  apply (session_cookie_found "forged" "; a=b").
  - discriminate.
  - reflexivity.
  - right. eexists. reflexivity.
Defined.

Lemma prefix_app a b : forall s,
  String.prefix (a ++ b) s = true -> String.prefix a s = true.
Proof.
  induction a as [|c a IH]; intros s; [destruct s; reflexivity|].
  rewrite append_cons. destruct s as [|d s]; [discriminate|].
  cbn [String.prefix].
  destruct (ascii_dec c d); [apply IH | discriminate].
Qed.

Lemma cookies_or_empty (cookie : option string) :
  (if truthy cookie then default EmptyString cookie else EmptyString)
  = default EmptyString cookie.
Proof. destruct cookie as [[|c r]|]; reflexivity. Qed.

Lemma in_domain_spec payload :
  in_domain payload = true
  <-> exists local, payload_email payload = Some (local ++ domain).
Proof.
  unfold in_domain. destruct (payload_email payload) as [address|].
  - rewrite ends_with_spec. split; intros [local H]; exists local; congruence.
  - split; [discriminate | intros [? ?]; discriminate].
Qed.

(** The edge function lets a request through exactly when its path is
    one of the functions' (the test for the callback is one of these) or
    of the API, or when the cookie verifies as a session whose address
    ends in "@reva16.org". *)
Theorem edge_lets_through verify pathname cookie client_id :
  auth verify pathname cookie client_id = Next
  <-> String.prefix "/.netlify/functions/" pathname = true
      \/ String.prefix "/api/" pathname = true
      \/ exists value payload local,
           session_cookie (default EmptyString cookie) = Some value
           /\ verify value = Some payload
           /\ payload_email payload = Some (local ++ domain).
Proof.
  unfold auth. rewrite cookies_or_empty.
  destruct (String.prefix "/.netlify/functions/oauth_callback" pathname)
    eqn:E0.
  { split; [|reflexivity]. intros _. left.
    apply (prefix_app "/.netlify/functions/" "oauth_callback"), E0. }
  destruct (String.prefix "/.netlify/functions/" pathname) eqn:E1;
    [tauto|].
  destruct (String.prefix "/api/" pathname) eqn:E2; [tauto|].
  cbn [orb].
  assert (Hun : forall r : EdgeResult,
    match client_id with
    | Some (String c r) => RedirectToGoogle (String c r)
    | _ => ConfigurationError
    end <> Next).
  { intros _. destruct client_id as [[|]|]; discriminate. }
  destruct (session_cookie _) as [value|] eqn:Es.
  - destruct (verify value) as [payload|] eqn:Ev.
    + destruct (in_domain payload) eqn:Ed.
      * split; [|reflexivity]. intros _. right. right.
        apply in_domain_spec in Ed as [local Hl]. eauto 6.
      * split; [discriminate|].
        intros [? | [? | (v & p & local & Hv & Hp & Hl)]];
          try discriminate.
        assert (v = value) as -> by congruence.
        assert (p = payload) as -> by congruence.
        assert (in_domain payload = true)
          by (apply in_domain_spec; eauto).
        congruence.
    + split; [intros H; destruct (Hun Next H)|].
      intros [? | [? | (v & p & local & Hv & Hp & Hl)]]; try discriminate.
      congruence.
  - split; [intros H; destruct (Hun Next H)|].
    intros [? | [? | (v & p & local & Hv & Hp & Hl)]]; discriminate.
Qed.

Lemma edge_lets_through_witness :
  auth sample_verify "/api/training-request" None None = Next.
Proof.
  apply (edge_lets_through sample_verify "/api/training-request" None None).
  right. left. reflexivity.
Defined.

(** The session that the callback signs is accepted everywhere: sent
    back as the cookie [session], it passes the edge function on any
    path, [verifyUser] returns it, and [me] answers with its address and
    roles; on the client, [isAdmin] holds of it exactly for dzager. *)
Theorem session_round_trip verify code error tokenError profile session
    value pathname client_id :
  oauth_callback code error tokenError profile = SignedIn session ->
  verify value = Some session ->
  value <> EmptyString -> semicolon_free value = true ->
  let cookie := Some ("session=" ++ value) in
  auth verify pathname cookie client_id = Next
  /\ verifyUser verify cookie = Some session
  /\ me verify cookie
     = Me (payload_email session) (payload_name session)
          (payload_picture session) (payload_sub session)
          (default [] (payload_roles session))
  /\ (isAdmin (me verify cookie) = true
      <-> payload_email session = Some "dzager@reva16.org").
Proof.
  intros Hc Hv Hne Hf cookie.
  assert (Hs : session_cookie ("session=" ++ value) = Some value).
  { assert (H := session_cookie_first value EmptyString Hne Hf
                   (or_introl eq_refl)).
    replace (value ++ EmptyString) with value in H; [exact H|].
    clear. induction value as [|c v IH]; [reflexivity|].
    rewrite append_cons, <- IH. reflexivity. }
  apply oauth_callback_signed_in in Hc
    as (local & p & _ & _ & Hsession & _).
  assert (Hme : me verify cookie
     = Me (payload_email session) (payload_name session)
          (payload_picture session) (payload_sub session)
          (default [] (payload_roles session))).
  { unfold me, cookie. rewrite cookies_or_empty.
    change (default EmptyString (Some ("session=" ++ value)))
      with ("session=" ++ value).
    rewrite Hs, Hv. reflexivity. }
  split; [|split; [|split; [exact Hme|]]].
  - unfold auth, cookie. rewrite cookies_or_empty.
    change (default EmptyString (Some ("session=" ++ value)))
      with ("session=" ++ value).
    rewrite Hs, Hv.
    assert (in_domain session = true) as ->
      by (apply in_domain_spec; exists local; rewrite Hsession; reflexivity).
    repeat destruct (String.prefix _ _); reflexivity.
  - unfold verifyUser, cookie.
    change (default EmptyString (Some ("session=" ++ value)))
      with ("session=" ++ value).
    rewrite Hs. exact Hv.
  - rewrite Hme, Hsession. cbn [isAdmin hasRole payload_email payload_roles
      default from_option].
    destruct (String.eqb local "dzager") eqn:E.
    + apply String.eqb_eq in E as ->. split; reflexivity.
    + split; [discriminate|]. intros [= H].
      change "dzager@reva16.org" with ("dzager" ++ domain) in H.
      apply append_cancel_r in H. apply String.eqb_neq in E. contradiction.
Qed.

Lemma session_round_trip_witness :
  auth sample_verify "/training" (Some ("session=" ++ "header.payload.signature"))
    None = Next.
Proof.
  apply (session_round_trip sample_verify (Some "4/0AX4XfWh") None
           (Some false) (Some sample_profile) sample_session
           "header.payload.signature" "/training" None).
  - reflexivity.
  - reflexivity.
  - discriminate.
  - reflexivity.
Defined.
End Sessions.
